(** * Netflix-Trivia: the room handler of [roomHandler.js]

    A shallow embedding of the socket handlers of [roomHandler.js] and of the
    helpers they call ([generateUniqueRoomId], [initializePlayer],
    [shuffleArray], [calculateRankings], [generateRound], [createRoom]),
    followed by the properties of the room life cycle.

    Conventions of the embedding.
    - The registry [rooms] is a JavaScript [Map] keyed by the room code: a
      [gmap string Room].  A handler mutates the room object it got from
      [rooms.get]; here it returns the registry with that entry replaced.
    - [room.players] is a plain object whose keys are socket ids.
      [Object.entries] and [Object.keys] enumerate it in insertion order and
      [Array.prototype.sort] is stable, so the object is an association list
      in insertion order ([JsObject]).  (Socket ids are not array indices,
      which an object would enumerate first.)
    - [roundQuestions] and [currentRoundAnswers] are objects that are only
      read and written by key: [gmap Z _].  Question ids and answer choices
      arrive in event payloads; they are taken to be integers, as the source
      comments assume.
    - [Math.random] is a tape of naturals read at a position that every call
      advances; [Math.floor(Math.random() * n)] is the draw modulo [n].
    - The HTTP request of [generateRound] is answered by a [Provider] handed
      to the call; [None] stands for any failure inside the [try] block.
    - Every handler runs to completion on the registry: what other events do
      while [generateRound] awaits the provider is outside this model. *)

From Stdlib Require Import Ascii String.
From stdpp Require Import gmap strings list fin_maps pretty sorting.

Local Open Scope string_scope.
Local Open Scope list_scope.
Local Open Scope nat_scope.

(** ** JavaScript objects in insertion order *)

Module JsObject.
Section obj.
Context {V : Type}.

(** [obj[k]]: [None] is [undefined]. *)
Fixpoint get (k : string) (o : list (string * V)) : option V :=
  match o with
  | [] => None
  | (k', v) :: o' => if decide (k' = k) then Some v else get k o'
  end.

(** [obj[k] = v]: overwrites in place, or appends a new property. *)
Fixpoint set (k : string) (v : V) (o : list (string * V)) : list (string * V) :=
  match o with
  | [] => [(k, v)]
  | (k', v') :: o' =>
      if decide (k' = k) then (k, v) :: o' else (k', v') :: set k v o'
  end.

(** [obj[k].field = x] for an object stored under [k]: the stored object is
    mutated in place (no effect when [k] is absent; the handlers only do it
    for keys they have just enumerated or looked up). *)
Fixpoint alter (f : V → V) (k : string) (o : list (string * V)) : list (string * V) :=
  match o with
  | [] => []
  | (k', v) :: o' =>
      if decide (k' = k) then (k', f v) :: o' else (k', v) :: alter f k o'
  end.

(** [Object.keys(obj)] and [Object.entries(obj)]. *)
Definition keys (o : list (string * V)) : list string := o.*1.
Definition entries (o : list (string * V)) : list (string * V) := o.

(** A JavaScript object has each key once. *)
Definition wf (o : list (string * V)) : Prop := NoDup (keys o).
End obj.
End JsObject.

(** ** Data model *)

(** [initializePlayer] builds these records. *)
Record Player := mkPlayer {
  name : string;
  currentRoundScore : nat;
  totalScore : nat;
  currentRoundAnswers : gmap Z bool;
  endOfRoundRank : option nat;   (* [null] is [None] *)
  overallRank : option nat
}.

(** One entry of [formattedQuestions]. *)
Record Question := mkQuestion {
  question : string;
  correct_answer : string;
  allAnswers : list string
}.

(** A category reference as it sits in [currentProgress.currentRound]:
    [null], [undefined] (what [rounds[0]] is for an empty plan) or an id. *)
Inductive CategoryRef :=
| CatNull
| CatUndefined
| CatId (c : Z).

(** What [currentProgress.roundQuestions] holds: [null] at allocation, the
    object built by [generateRound], or the string "end of round" that
    [generateRound] returns when the plan has no next entry. *)
Inductive RoundQuestions :=
| RQNull
| RQEndOfRound
| RQObject (qs : gmap Z Question).

Record Progress := mkProgress {
  currentRound : CategoryRef;
  currentQuestion : Z;
  roundQuestions : RoundQuestions
}.

Record Room := mkRoom {
  roomId : string;
  gameMaster : string;
  questionTimeLimit : Z;
  questionPerRound : Z;
  mode : Z;
  rounds : list Z;
  players : list (string * Player);
  quizStarted : bool;
  currentProgress : Progress
}.

Abbreviation Rooms := (gmap string Room).

#[global] Instance CategoryRef_eq_dec : EqDecision CategoryRef.
Proof. solve_decision. Defined.
#[global] Instance Player_eq_dec : EqDecision Player.
Proof. solve_decision. Defined.
#[global] Instance Question_eq_dec : EqDecision Question.
Proof. solve_decision. Defined.

(** Field updates, one per assigned field. *)
Definition set_currentRoundScore (n : nat) (p : Player) : Player :=
  mkPlayer (name p) n (totalScore p) (currentRoundAnswers p)
           (endOfRoundRank p) (overallRank p).
Definition set_totalScore (n : nat) (p : Player) : Player :=
  mkPlayer (name p) (currentRoundScore p) n (currentRoundAnswers p)
           (endOfRoundRank p) (overallRank p).
Definition set_currentRoundAnswers (a : gmap Z bool) (p : Player) : Player :=
  mkPlayer (name p) (currentRoundScore p) (totalScore p) a
           (endOfRoundRank p) (overallRank p).
Definition set_endOfRoundRank (r : option nat) (p : Player) : Player :=
  mkPlayer (name p) (currentRoundScore p) (totalScore p)
           (currentRoundAnswers p) r (overallRank p).
Definition set_overallRank (r : option nat) (p : Player) : Player :=
  mkPlayer (name p) (currentRoundScore p) (totalScore p)
           (currentRoundAnswers p) (endOfRoundRank p) r.

Definition set_players (ps : list (string * Player)) (r : Room) : Room :=
  mkRoom (roomId r) (gameMaster r) (questionTimeLimit r) (questionPerRound r)
         (mode r) (rounds r) ps (quizStarted r) (currentProgress r).
Definition set_quizStarted (b : bool) (r : Room) : Room :=
  mkRoom (roomId r) (gameMaster r) (questionTimeLimit r) (questionPerRound r)
         (mode r) (rounds r) (players r) b (currentProgress r).
Definition set_currentProgress (c : Progress) (r : Room) : Room :=
  mkRoom (roomId r) (gameMaster r) (questionTimeLimit r) (questionPerRound r)
         (mode r) (rounds r) (players r) (quizStarted r) c.
Definition set_currentRound (c : CategoryRef) (r : Room) : Room :=
  set_currentProgress
    (mkProgress c (currentQuestion (currentProgress r))
                (roundQuestions (currentProgress r))) r.
Definition set_currentQuestion (q : Z) (r : Room) : Room :=
  set_currentProgress
    (mkProgress (currentRound (currentProgress r)) q
                (roundQuestions (currentProgress r))) r.
Definition set_roundQuestions (q : RoundQuestions) (r : Room) : Room :=
  set_currentProgress
    (mkProgress (currentRound (currentProgress r))
                (currentQuestion (currentProgress r)) q) r.

(** ** What a handler does to the outside *)

(** The first argument a handler passes to its callback on failure. *)
Inductive CallbackError :=
| ErrObject (error : string)          (* [{ error: "..." }] *)
| ErrFlagged (message : string)       (* [{ error: true, message: "..." }] *)
| ErrString (s : string).             (* a bare string *)

(** The arguments of the callback: an error, or [null] and a result. *)
Inductive Reply :=
| ReplyError (e : CallbackError)
| ReplyRoom (r : Room)                (* [callback(null, room)] *)
| ReplyText (s : string)              (* [callback(null, "...")] *)
| ReplyMessage (message : string).    (* [callback(null, { message })] *)

(** How the handler ended: it called the callback, an exception escaped it,
    or a loop ran out of the fuel it was given. *)
Inductive Completion :=
| Replied (r : Reply)
| Threw
| OutOfFuel.

(** Payloads of [io.to(target).emit(event, payload)]. *)
Inductive EmitPayload :=
| PMessage (message : string)
| PPlayerJoined (name : string) (room : Room)
| PNextQuestion (questionId : Z)
| PPlayerData (message : string) (roomId : string) (playerData : option Player)
| PPlayerAnswered (playerId playerName : string) (answer : option string)
                  (isCorrect : bool).

Inductive Effect :=
| Emit (target event : string) (payload : EmitPayload)
| SocketJoin (socketId roomId : string).

Record Outcome := mkOutcome {
  completion : Completion;
  registry : Rooms;
  effects : list Effect
}.

(** The error values of the handlers, under the names the design gives them. *)
Definition RoomNotFound : CallbackError :=
  ErrFlagged "Room not found".
Definition RoomNotFoundOnStart : CallbackError :=
  ErrString "error: room not found".
Definition RoomNotJoinable : CallbackError :=
  ErrFlagged "Room not found or not joinable".
Definition QuizAlreadyStarted : CallbackError :=
  ErrFlagged "Quiz has already started. No new players can join.".
Definition NoPlayers : CallbackError :=
  ErrObject "Cannot start quiz: No players in the room".
Definition PlayerNotFound : CallbackError :=
  ErrFlagged "Player not found in the room.".
Definition NoActiveQuestion : CallbackError :=
  ErrFlagged "No active question found.".
Definition QuestionGenerationFailed : CallbackError :=
  ErrObject "Failed to create room".
Definition RoundGenerationFailed : CallbackError :=
  ErrObject "Failed to generate next round".

(** ** [initializePlayer] *)

Definition initializePlayer (playerName : string) : Player :=
  mkPlayer playerName 0 0 ∅ None None.

(** ** [submitAnswer] *)

(** [array[i]] for an integer [i]: [undefined] out of range. *)
Definition array_get {A} (arr : list A) (i : Z) : option A :=
  if decide (0 ≤ i)%Z then arr !! Z.to_nat i else None.

(** What [roundQuestions[currentQid]] evaluates to. *)
Inductive QuestionSlot :=
| SlotThrows                 (* indexing [null] *)
| SlotUndefined
| SlotChar                   (* a character of "end of round": truthy *)
| SlotQuestion (q : Question).

Definition question_slot (rq : RoundQuestions) (currentQid : Z) : QuestionSlot :=
  match rq with
  | RQNull => SlotThrows
  | RQEndOfRound =>
      if decide (0 ≤ currentQid < Z.of_nat (String.length "end of round"))%Z
      then SlotChar else SlotUndefined
  | RQObject qs =>
      match qs !! currentQid with
      | Some q => SlotQuestion q
      | None => SlotUndefined
      end
  end.

(** The update of the player object once the question is known. *)
Definition record_answer (currentQid : Z) (isCorrect : bool) (player : Player) : Player :=
  let player1 :=
    set_currentRoundAnswers (<[currentQid := isCorrect]> (currentRoundAnswers player)) player in
  if isCorrect
  then set_totalScore (totalScore player1 + 1)
         (set_currentRoundScore (currentRoundScore player1 + 1) player1)
  else player1.

Definition submitAnswer (socket_id : string) (payload_roomId : string)
    (payload_answer : Z) (rooms : Rooms) : Outcome :=
  match rooms !! payload_roomId with
  | Some room =>
      match JsObject.get socket_id (players room) with
      | None => mkOutcome (Replied (ReplyError PlayerNotFound)) rooms []
      | Some player =>
          let currentQid := currentQuestion (currentProgress room) in
          match question_slot (roundQuestions (currentProgress room)) currentQid with
          | SlotThrows => mkOutcome Threw rooms []
          | SlotUndefined =>
              mkOutcome (Replied (ReplyError NoActiveQuestion)) rooms []
          | SlotChar =>
              (* [currentQuestion.allAnswers] is [undefined]: indexing it throws *)
              mkOutcome Threw rooms []
          | SlotQuestion currentQuestion =>
              let correctAnswer := correct_answer currentQuestion in
              let selectedAnswer :=
                array_get (allAnswers currentQuestion) (payload_answer - 1) in
              let isCorrect := bool_decide (selectedAnswer = Some correctAnswer) in
              let room' :=
                set_players
                  (JsObject.alter (record_answer currentQid isCorrect)
                                  socket_id (players room)) room in
              mkOutcome
                (Replied (ReplyMessage "Answer submitted successfully."))
                (<[payload_roomId := room']> rooms)
                [Emit (gameMaster room) "playerAnswered"
                      (PPlayerAnswered socket_id (name player) selectedAnswer isCorrect)]
          end
      end
  | None => mkOutcome (Replied (ReplyError RoomNotFound)) rooms []
  end.

(** ** [Math.random], [shuffleArray] *)

(** The tape of [Math.random]: the draw made by the [k]-th call. *)
Definition Random := nat → N.

(** [Math.floor(Math.random() * n)] at tape position [k]. *)
Definition random_below (rnd : Random) (k : nat) (n : N) : N := (rnd k `mod` n)%N.

(** [[array[i], array[j]] = [array[j], array[i]]]. *)
Definition swap {A} (array : list A) (i j : nat) : list A :=
  match array !! i, array !! j with
  | Some ai, Some aj => <[j := ai]> (<[i := aj]> array)
  | _, _ => array
  end.

(** The loop [for (let i = array.length - 1; i > 0; i--)], entered at [i]. *)
Fixpoint shuffle_from {A} (rnd : Random) (k : nat) (i : nat) (array : list A)
  : list A * nat :=
  match i with
  | 0 => (array, k)
  | S i' =>
      let j := N.to_nat (random_below rnd k (N.of_nat (i + 1))) in
      shuffle_from rnd (S k) i' (swap array i j)
  end.

Definition shuffleArray {A} (rnd : Random) (k : nat) (array : list A) : list A * nat :=
  shuffle_from rnd k (length array - 1) array.

(** ** [generateUniqueRoomId] *)

(** [Math.floor(100000 + Math.random() * 900000).toString()]. *)
Definition room_code (rnd : Random) (k : nat) : string :=
  pretty (100000 + random_below rnd k 900000)%N.

(** The [while (exists)] loop; [fuel] bounds the number of iterations. *)
Fixpoint generateUniqueRoomId (fuel : nat) (rnd : Random) (k : nat) (rooms : Rooms)
  : option (string * nat) :=
  match fuel with
  | 0 => None
  | S fuel' =>
      let roomId := room_code rnd k in
      if decide (is_Some (rooms !! roomId))
      then generateUniqueRoomId fuel' rnd (S k) rooms
      else Some (roomId, S k)
  end.

(** ** [calculateRankings] *)

(** [Array.prototype.sort(comparefn)]: the stable sort by a consistent
    comparator, here by insertion from the right. *)
Fixpoint sort_insert {A} (comparefn : A → A → Z) (x : A) (l : list A) : list A :=
  match l with
  | [] => [x]
  | y :: l' =>
      if decide (comparefn x y ≤ 0)%Z then x :: y :: l'
      else y :: sort_insert comparefn x l'
  end.

Definition array_sort {A} (comparefn : A → A → Z) (l : list A) : list A :=
  foldr (sort_insert comparefn) [] l.

(** [(a, b) => b.score - a.score] on [{ playerId, score }]. *)
Definition by_score_desc (a b : string * nat) : Z := (Z.of_nat b.2 - Z.of_nat a.2)%Z.

(** [players.map(([playerId, player]) => ({ playerId, score: ... })).sort(...)]. *)
Definition rankings_of (score : Player → nat) (entries : list (string * Player))
  : list (string * nat) :=
  array_sort by_score_desc ((λ e, (e.1, score e.2)) <$> entries).

(** One iteration of the ranking loop at index [i]: the state is
    [currentRank] and the players object. *)
Definition rank_step (setRank : option nat → Player → Player)
    (rankings : list (string * nat))
    (st : nat * list (string * Player)) (i : nat) : nat * list (string * Player) :=
  match rankings !! i with
  | None => st
  | Some (playerId, score) =>
      let currentRank :=
        if decide (0 < i ∧ Some score ≠ snd <$> rankings !! (i - 1))
        then i + 1 else st.1 in
      (currentRank, JsObject.alter (setRank (Some currentRank)) playerId st.2)
  end.

(** The loop after its first [n] iterations, from [currentRank = 1]. *)
Definition loop_prefix (setRank : option nat → Player → Player)
    (rankings : list (string * nat)) (ps : list (string * Player)) (n : nat)
  : nat * list (string * Player) :=
  foldl (rank_step setRank rankings) (1, ps) (seq 0 n).

Definition rank_loop (setRank : option nat → Player → Player)
    (rankings : list (string * nat)) (ps : list (string * Player))
  : list (string * Player) :=
  (loop_prefix setRank rankings ps (length rankings)).2.

(** The entries array holds references to the player objects, so the second
    pass reads [totalScore] from the objects as the first pass left them. *)
Definition calculateRankings (room : Room) : Room :=
  let roundRankings :=
    rankings_of currentRoundScore (JsObject.entries (players room)) in
  let players1 := rank_loop set_endOfRoundRank roundRankings (players room) in
  let overallRankings := rankings_of totalScore (JsObject.entries players1) in
  set_players (rank_loop set_overallRank overallRankings players1) room.

(** ** [generateRound] *)

Module OpenTrivia.
(** One element of [response.data.results]. *)
Record QuestionData := mkQuestionData {
  question : string;
  correct_answer : string;
  incorrect_answers : list string
}.

(** The query string of the request. *)
Record Request := mkRequest {
  amount : Z;
  category : CategoryRef;
  difficulty : string
}.
End OpenTrivia.

(** The provider behind [axios.get]: [None] is a rejected request or a
    response the [try] block cannot process. *)
Definition Provider := OpenTrivia.Request → option (list OpenTrivia.QuestionData).

Definition difficultyMap (mode : Z) : option string :=
  if decide (mode = 1)%Z then Some "easy"
  else if decide (mode = 2)%Z then Some "medium"
  else if decide (mode = 3)%Z then Some "hard"
  else if decide (mode = 4)%Z then Some "easy"
  else None.

(** [rounds.indexOf(x)], scanning from index [i]. *)
Fixpoint indexOf_from (x : CategoryRef) (rounds : list Z) (i : Z) : Z :=
  match rounds with
  | [] => -1
  | c :: rounds' =>
      if decide (CatId c = x) then i else indexOf_from x rounds' (i + 1)
  end.
Definition indexOf (x : CategoryRef) (rounds : list Z) : Z := indexOf_from x rounds 0.

(** [rounds[i]] as a category reference. *)
Definition round_at (rounds : list Z) (i : Z) : CategoryRef :=
  match array_get rounds i with
  | Some c => CatId c
  | None => CatUndefined
  end.

(** The block "Determine the next category ID": [None] is the early
    [return "end of round"]. *)
Definition nextCategoryId (currentRound : CategoryRef) (rounds : list Z)
  : option CategoryRef :=
  match currentRound with
  | CatNull => Some (round_at rounds 0)
  | _ =>
      let currentIndex := indexOf currentRound rounds in
      if decide (0 ≤ currentIndex ∧ currentIndex < Z.of_nat (length rounds) - 1)%Z
      then Some (round_at rounds (currentIndex + 1))
      else None
  end.

(** [results.forEach((questionData, index) => ...)], entered at [index]. *)
Fixpoint format_questions (rnd : Random) (k : nat) (index : Z)
    (results : list OpenTrivia.QuestionData) (formattedQuestions : gmap Z Question)
  : gmap Z Question * nat :=
  match results with
  | [] => (formattedQuestions, k)
  | questionData :: results' =>
      let '(allAnswers, k') :=
        shuffleArray rnd k (OpenTrivia.correct_answer questionData
                            :: OpenTrivia.incorrect_answers questionData) in
      format_questions rnd k' (index + 1) results'
        (<[(index + 1)%Z :=
             mkQuestion (OpenTrivia.question questionData)
                        (OpenTrivia.correct_answer questionData)
                        allAnswers]> formattedQuestions)
  end.

(** What a call of [generateRound] comes to: a returned value with the room
    as the call left it and the tape position, or a thrown error. *)
Inductive RoundResult :=
| RoundReturned (value : RoundQuestions) (room : Room) (k : nat)
| RoundThrew.

Definition generateRound (provider : Provider) (rnd : Random) (k : nat)
    (currentRound : CategoryRef) (rounds : list Z) (mode questionsPerRound : Z)
    (room : Room) : RoundResult :=
  let difficulty := default "easy" (difficultyMap mode) in
  match nextCategoryId currentRound rounds with
  | None => RoundReturned RQEndOfRound room k
  | Some nextCategory =>
      match provider (OpenTrivia.mkRequest questionsPerRound nextCategory difficulty) with
      | None => RoundThrew
      | Some results =>
          let '(formattedQuestions, k') := format_questions rnd k 0 results ∅ in
          RoundReturned (RQObject formattedQuestions)
                        (set_currentRound nextCategory room) k'
      end
  end.

(** ** [createRoom] and the handlers *)

(** The environment of one handler run. *)
Record World := mkWorld {
  fuel : nat;
  random : Random;
  position : nat;
  provider : Provider
}.

Inductive CreateResult :=
| Created (room : Room) (rooms : Rooms)
| CreateThrew
| CreateOutOfFuel.

Definition createRoom (w : World) (socket_id : string) (rooms : Rooms)
    (questionTimeLimit questionsPerRound : option Z) (rounds : list Z) (mode : Z)
  : CreateResult :=
  let questionTimeLimit := default 0%Z questionTimeLimit in
  let questionsPerRound := default 5%Z questionsPerRound in
  match generateUniqueRoomId (fuel w) (random w) (position w) rooms with
  | None => CreateOutOfFuel
  | Some (roomId, k) =>
      let room :=
        mkRoom roomId socket_id questionTimeLimit questionsPerRound mode rounds
               [] false (mkProgress CatNull 1 RQNull) in
      match generateRound (provider w) (random w) k CatNull rounds mode
                          questionsPerRound room with
      | RoundThrew => CreateThrew
      | RoundReturned roundQuestions room1 _ =>
          let room2 := set_roundQuestions roundQuestions room1 in
          Created room2 (<[roomId := room2]> rooms)
      end
  end.

Definition create (w : World) (socket_id : string)
    (payload_questionTimeLimit payload_questionPerRound : option Z)
    (payload_rounds : list Z) (payload_mode : Z) (rooms : Rooms) : Outcome :=
  match createRoom w socket_id rooms payload_questionTimeLimit
                   payload_questionPerRound payload_rounds payload_mode with
  | Created newRoom rooms' =>
      mkOutcome (Replied (ReplyRoom newRoom)) rooms'
                [SocketJoin socket_id (roomId newRoom)]
  | CreateThrew => mkOutcome (Replied (ReplyError QuestionGenerationFailed)) rooms []
  | CreateOutOfFuel => mkOutcome OutOfFuel rooms []
  end.

Definition startQuiz (payload_roomId : string) (rooms : Rooms) : Outcome :=
  match rooms !! payload_roomId with
  | Some room =>
      let playerCount := length (JsObject.keys (players room)) in
      if decide (playerCount = 0)
      then mkOutcome (Replied (ReplyError NoPlayers)) rooms []
      else
        let room' := set_quizStarted true room in
        mkOutcome (Replied (ReplyText "Quiz started successfully"))
                  (<[payload_roomId := room']> rooms)
                  [Emit (roomId room') "quiz:started"
                        (PMessage "The quiz has started!")]
  | None => mkOutcome (Replied (ReplyError RoomNotFoundOnStart)) rooms []
  end.

Definition playerJoin (socket_id : string) (payload_roomId payload_name : string)
    (rooms : Rooms) : Outcome :=
  match rooms !! payload_roomId with
  | Some room =>
      if quizStarted room
      then mkOutcome (Replied (ReplyError QuizAlreadyStarted)) rooms []
      else
        match JsObject.get socket_id (players room) with
        | Some _ => mkOutcome (Replied (ReplyRoom room)) rooms []
        | None =>
            let room' :=
              set_players (JsObject.set socket_id (initializePlayer payload_name)
                                        (players room)) room in
            mkOutcome (Replied (ReplyRoom room'))
                      (<[payload_roomId := room']> rooms)
                      [SocketJoin socket_id (roomId room');
                       Emit (gameMaster room') "player:joined"
                            (PPlayerJoined payload_name room')]
        end
  | None => mkOutcome (Replied (ReplyError RoomNotJoinable)) rooms []
  end.

Definition nextQuestion (payload_roomId : string) (payload_questionId : Z)
    (rooms : Rooms) : Outcome :=
  match rooms !! payload_roomId with
  | Some room =>
      let room' := set_currentQuestion payload_questionId room in
      mkOutcome (Replied (ReplyRoom room'))
                (<[payload_roomId := room']> rooms)
                [Emit (roomId room') "quiz:nextQuestion"
                      (PNextQuestion payload_questionId)]
  | None => mkOutcome (Replied (ReplyError RoomNotFound)) rooms []
  end.

(** The per-player notification shared by [endOfRound] and [endOfGame]. *)
Definition notify_players (event message : string) (room : Room) : list Effect :=
  (λ playerId,
     Emit playerId event
          (PPlayerData message (roomId room)
                       (JsObject.get playerId (players room))))
  <$> JsObject.keys (players room).

Definition endOfRound (payload_roomId : string) (rooms : Rooms) : Outcome :=
  match rooms !! payload_roomId with
  | Some room =>
      let room' := calculateRankings room in
      mkOutcome (Replied (ReplyRoom room'))
                (<[payload_roomId := room']> rooms)
                (notify_players "quiz:endOfRound" "The round has ended." room')
  | None => mkOutcome (Replied (ReplyError RoomNotFound)) rooms []
  end.

(** The body of the [forEach] over [Object.keys(room.players)] in [nextRound]. *)
Definition reset_player (p : Player) : Player :=
  set_endOfRoundRank None (set_currentRoundAnswers ∅ (set_currentRoundScore 0 p)).

Definition reset_players (ps : list (string * Player)) : list (string * Player) :=
  foldl (λ ps playerId, JsObject.alter reset_player playerId ps) ps (JsObject.keys ps).

Definition nextRound (w : World) (payload_roomId : string) (rooms : Rooms) : Outcome :=
  match rooms !! payload_roomId with
  | Some room =>
      match generateRound (provider w) (random w) (position w)
                          (currentRound (currentProgress room)) (rounds room)
                          (mode room) (questionPerRound room) room with
      | RoundThrew => mkOutcome (Replied (ReplyError RoundGenerationFailed)) rooms []
      | RoundReturned roundQuestions room1 _ =>
          let room2 := set_currentQuestion 1 (set_roundQuestions roundQuestions room1) in
          let room3 := set_players (reset_players (players room2)) room2 in
          mkOutcome (Replied (ReplyRoom room3))
                    (<[payload_roomId := room3]> rooms)
                    [Emit (roomId room3) "quiz:roundStart"
                          (PMessage "New round started!")]
      end
  | None => mkOutcome (Replied (ReplyError RoomNotFound)) rooms []
  end.

Definition endOfGame (payload_roomId : string) (rooms : Rooms) : Outcome :=
  match rooms !! payload_roomId with
  | Some room =>
      let room' := calculateRankings room in
      mkOutcome (Replied (ReplyRoom room'))
                (<[payload_roomId := room']> rooms)
                (notify_players "quiz:endOfGame" "The game has ended." room')
  | None => mkOutcome (Replied (ReplyError RoomNotFound)) rooms []
  end.

(** The events a socket is registered for ([socket.on(...)]), with their
    payloads and the id of the socket they arrive on. *)
Inductive Event :=
| RoomCreate (socket_id : string) (questionTimeLimit questionPerRound : option Z)
             (rounds : list Z) (mode : Z)
| QuizStart (socket_id roomId : string)
| PlayerJoin (socket_id roomId name : string)
| QuizNextQuestion (socket_id roomId : string) (questionId : Z)
| QuizEndOfRound (socket_id roomId : string)
| QuizNextRound (socket_id roomId : string)
| SubmitAnswer (socket_id roomId : string) (answer : Z)
| QuizEndOfGame (socket_id roomId : string).

Definition handle (w : World) (e : Event) (rooms : Rooms) : Outcome :=
  match e with
  | RoomCreate sid qtl qpr rs m => create w sid qtl qpr rs m rooms
  | QuizStart _ rid => startQuiz rid rooms
  | PlayerJoin sid rid nm => playerJoin sid rid nm rooms
  | QuizNextQuestion _ rid qid => nextQuestion rid qid rooms
  | QuizEndOfRound _ rid => endOfRound rid rooms
  | QuizNextRound _ rid => nextRound w rid rooms
  | SubmitAnswer sid rid a => submitAnswer sid rid a rooms
  | QuizEndOfGame _ rid => endOfGame rid rooms
  end.

(** The question the room is on, when [roundQuestions] is a question set
    that has one under [currentQuestion]. *)
Definition active_question (room : Room) : option Question :=
  match roundQuestions (currentProgress room) with
  | RQObject qs => qs !! currentQuestion (currentProgress room)
  | _ => None
  end.

(** [answerChoice] selects the correct answer of [q]. *)
Definition selects_correct (q : Question) (answerChoice : Z) : Prop :=
  array_get (allAnswers q) (answerChoice - 1) = Some (correct_answer q).

(** ** The ranking scheme in the words of the design *)

(** The rank of the player at 0-based position [i] of the sorted order: the
    first player gets rank 1; a later player gets the rank of the previous one
    when their scores are equal, and its 1-based position otherwise. *)
Fixpoint dense_rank (scores : list nat) (i : nat) : nat :=
  match i with
  | 0 => 1
  | S j =>
      if decide (scores !! S j = scores !! j) then dense_rank scores j
      else S j + 1
  end.

Definition spec_ranks (scores : list nat) : list nat :=
  dense_rank scores <$> seq 0 (length scores).

(** The ranks read from the players object, listed in the order of a
    ranking array. *)
Definition ranks_in_order (rank : Player → option nat)
    (rankings : list (string * nat)) (ps : list (string * Player))
  : list (option nat) :=
  (λ e, JsObject.get e.1 ps ≫= rank) <$> rankings.

(** The order the ranking sorts into: scores never increase. *)
Definition score_desc (a b : string * nat) : Prop := b.2 ≤ a.2.


(** ** Sample rooms *)

Module Sample.
Definition q1 : Question := mkQuestion "Capital of France?" "Paris" ["Rome"; "Paris"; "Oslo"; "Bern"].
Definition q2 : Question := mkQuestion "2 + 2?" "4" ["4"; "3"; "5"; "22"].
Definition questions : gmap Z Question := <[2%Z := q2]> (<[1%Z := q1]> ∅).

Definition player (n : string) (round total : nat) : Player :=
  mkPlayer n round total ∅ None None.

Definition room_with (ps : list (string * Player)) (started : bool) : Room :=
  mkRoom "482913" "gm" 0 2 1 [9%Z] ps started
         (mkProgress (CatId 9) 1 (RQObject questions)).

(** Round scores 7, 10, 10 in join order; total scores 3, 5, 1, 4, 3. *)
Definition trio : Room :=
  room_with [("s1", player "Ann" 7 7); ("s2", player "Bob" 10 10);
             ("s3", player "Cy" 10 10)] true.
Definition quintet : Room :=
  room_with [("s1", player "Ann" 0 3); ("s2", player "Bob" 0 5);
             ("s3", player "Cy" 0 1); ("s4", player "Di" 0 4);
             ("s5", player "Ed" 0 3)] true.

Definition lobby : Room := room_with [] false.
Definition lobby1 : Room := room_with [("s1", player "Ann" 0 0)] false.
Definition started1 : Room := room_with [("s1", player "Ann" 0 0)] true.

Definition registry_of (r : Room) : Rooms := {[ "482913" := r ]}.

(** A second round to go, the first one played to its second question. *)
Definition two_rounds : Room :=
  mkRoom "482913" "gm" 0 2 1 [9%Z; 12%Z]
         [("s1", mkPlayer "Ann" 1 4 {[1%Z := true; 2%Z := false]} (Some 2) (Some 1));
          ("s2", mkPlayer "Bob" 2 3 {[1%Z := true; 2%Z := true]} (Some 1) (Some 2))]
         true (mkProgress (CatId 9) 2 (RQObject questions)).

(** A provider that answers every request with two questions, one that
    fails, and a random source whose every draw gives the code 482913. *)
Definition results : list OpenTrivia.QuestionData :=
  [OpenTrivia.mkQuestionData "Capital of France?" "Paris" ["Rome"; "Oslo"; "Bern"];
   OpenTrivia.mkQuestionData "2 + 2?" "4" ["3"; "5"; "22"]].
Definition world : World := mkWorld 4 (λ _, 382913%N) 0 (λ _, Some results).
Definition failing_world : World := mkWorld 4 (λ _, 382913%N) 0 (λ _, None).

(** The game master creates a room, then advances to question 99. *)
Definition advance_out_of_range : list (World * Event) :=
  [(world, RoomCreate "gm" None (Some 2%Z) [9%Z] 1);
   (world, QuizNextQuestion "gm" "482913" 99)].
End Sample.


(** ** Room codes in the words of the design *)

Definition is_digit (c : ascii) : Prop := (48 ≤ N_of_ascii c ≤ 57)%N.

(** A 6-digit numeric string in the range 100000-999999. *)
Definition six_digit_code (s : string) : Prop :=
  String.length s = 6
  ∧ Forall is_digit (list_ascii_of_string s)
  ∧ ∃ n : N, (100000 ≤ n ≤ 999999)%N ∧ s = pretty n.


(** ** The question-index invariant in the words of the design *)

(** Once the room holds a question set, [currentQuestion] is one of its
    keys.  The value "end of round" is not a question set. *)
Definition question_index_valid (room : Room) : Prop :=
  match roundQuestions (currentProgress room) with
  | RQObject qs => is_Some (qs !! currentQuestion (currentProgress room))
  | _ => True
  end.

Definition registry_valid (rooms : Rooms) : Prop :=
  map_Forall (λ _ room, question_index_valid room) rooms.

(** The conditions under which an event keeps the invariant: a question id
    passed to [nextQuestion] is a key of the room's question set, and a
    provider that answers a round request sends at least one question. *)
Definition event_in_bounds (w : World) (e : Event) (rooms : Rooms) : Prop :=
  match e with
  | QuizNextQuestion _ rid qid =>
      ∀ room qs, rooms !! rid = Some room →
        roundQuestions (currentProgress room) = RQObject qs → is_Some (qs !! qid)
  | RoomCreate _ _ qpr plan m =>
      provider w (OpenTrivia.mkRequest (default 5%Z qpr) (round_at plan 0)
                    (default "easy" (difficultyMap m))) ≠ Some []
  | QuizNextRound _ rid =>
      ∀ room next, rooms !! rid = Some room →
        nextCategoryId (currentRound (currentProgress room)) (rounds room)
        = Some next →
        provider w (OpenTrivia.mkRequest (questionPerRound room) next
                      (default "easy" (difficultyMap (mode room)))) ≠ Some []
  | _ => True
  end.

(** A sequence of events, each with the environment it runs in. *)
Fixpoint run (es : list (World * Event)) (rooms : Rooms) : Rooms :=
  match es with
  | [] => rooms
  | (w, e) :: es' => run es' (registry (handle w e rooms))
  end.

Fixpoint all_in_bounds (es : list (World * Event)) (rooms : Rooms) : Prop :=
  match es with
  | [] => True
  | (w, e) :: es' =>
      event_in_bounds w e rooms ∧ all_in_bounds es' (registry (handle w e rooms))
  end.


(** ** Notions for the properties of the handlers *)

(** The room an event names in its payload; [room:create] names none. *)
Definition event_roomId (e : Event) : option string :=
  match e with
  | RoomCreate _ _ _ _ _ => None
  | QuizStart _ rid => Some rid
  | PlayerJoin _ rid _ => Some rid
  | QuizNextQuestion _ rid _ => Some rid
  | QuizEndOfRound _ rid => Some rid
  | QuizNextRound _ rid => Some rid
  | SubmitAnswer _ rid _ => Some rid
  | QuizEndOfGame _ rid => Some rid
  end.

(** The error a handler replies with when its room is not in the registry. *)
Definition room_not_found_error (e : Event) : CallbackError :=
  match e with
  | QuizStart _ _ => RoomNotFoundOnStart
  | PlayerJoin _ _ _ => RoomNotJoinable
  | _ => RoomNotFound
  end.

(** The number of players whose score is higher than [s]. *)
Definition higher_count (score : Player → nat) (ps : list (string * Player))
    (s : nat) : nat :=
  length (filter (λ e, s < score e.2) ps).

(** [n] submissions in a row of the same answer choice by the same socket. *)
Definition submit_times (n : nat) (socket_id rid : string) (answer : Z)
    (rooms : Rooms) : Rooms :=
  Nat.iter n (λ rooms, registry (submitAnswer socket_id rid answer rooms)) rooms.

(** What stays of a room's players: each is still there under its socket id,
    with its name and a total score that is not lower. *)
Definition keeps_players (room room' : Room) : Prop :=
  ∀ id p, JsObject.get id (players room) = Some p →
    ∃ p', JsObject.get id (players room') = Some p'
      ∧ name p' = name p ∧ totalScore p ≤ totalScore p'.

(** What stays of a room's settings: everything [createRoom] was given, and
    [quizStarted] once it is true. *)
Definition keeps_config (room room' : Room) : Prop :=
  roomId room' = roomId room
  ∧ gameMaster room' = gameMaster room
  ∧ questionTimeLimit room' = questionTimeLimit room
  ∧ questionPerRound room' = questionPerRound room
  ∧ mode room' = mode room
  ∧ rounds room' = rounds room
  ∧ (quizStarted room = true → quizStarted room' = true).

(** Invariants of the rooms of a registry. *)
Definition keyed_by_roomId (rooms : Rooms) : Prop :=
  map_Forall (λ k room, roomId room = k) rooms.

Definition players_wf (rooms : Rooms) : Prop :=
  map_Forall (λ _ room, JsObject.wf (players room)) rooms.

Definition round_within_total (rooms : Rooms) : Prop :=
  map_Forall (λ _ room,
    ∀ id p, JsObject.get id (players room) = Some p →
      currentRoundScore p ≤ totalScore p) rooms.


(** ** The handlers as a transition system *)

(** The changes a handler makes to the room it was called for: none, the
    quiz started, a player joined, the question index set, the ranks
    computed, a round started, an answer recorded. *)
Inductive room_step (room : Room) : Room → Prop :=
| step_same : room_step room room
| step_started : room_step room (set_quizStarted true room)
| step_joined socket_id playerName :
    quizStarted room = false →
    JsObject.get socket_id (players room) = None →
    room_step room
      (set_players (JsObject.set socket_id (initializePlayer playerName)
                                 (players room)) room)
| step_question questionId : room_step room (set_currentQuestion questionId room)
| step_ranked : room_step room (calculateRankings room)
| step_round value category :
    room_step room
      (set_players (reset_players (players room))
         (set_currentProgress (mkProgress category 1 value) room))
| step_answered socket_id questionId isCorrect :
    room_step room
      (set_players (JsObject.alter (record_answer questionId isCorrect)
                                   socket_id (players room)) room).

(** The changes a handler makes to the registry: none, one room changed in
    place, or a room without players stored under a code that was free. *)
Inductive registry_step (rooms : Rooms) : Rooms → Prop :=
| registry_same : registry_step rooms rooms
| registry_update rid room room' :
    rooms !! rid = Some room → room_step room room' →
    registry_step rooms (<[rid := room']> rooms)
| registry_create code room' :
    rooms !! code = None → roomId room' = code →
    players room' = [] → quizStarted room' = false →
    registry_step rooms (<[code := room']> rooms).


(** ** The random source *)

(** A random source that keeps drawing every code: from every position of
    the tape on, each of the 900000 values of
    [Math.floor(Math.random() * 900000)] is still to come.  (A source of
    independent uniform draws is such with probability 1.) *)
Definition draws_every_code (rnd : Random) : Prop :=
  ∀ (r : N) (k : nat), (r < 900000)%N →
    ∃ j, k ≤ j ∧ random_below rnd j 900000 = r.


(** A sequence of events of the handlers that work on a stored room: every
    event but [room:create]. *)
Definition room_events (es : list (World * Event)) : Prop :=
  Forall (λ we, is_Some (event_roomId we.2)) es.


(** * Properties *)

(** ** JavaScript objects *)

Section JsObject_facts.
Context {V : Type}.
Implicit Types (o : list (string * V)) (k : string) (f : V → V).

Lemma get_alter f k k' o :
  JsObject.get k (JsObject.alter f k' o)
  = if decide (k' = k) then f <$> JsObject.get k o else JsObject.get k o.
Proof.
  induction o as [|[k0 v] o IH]; simpl; [by case_decide|].
  repeat (case_decide; simplify_eq/=); try done.
  all: rewrite IH; by repeat (case_decide; simplify_eq/=).
Qed.

Lemma get_alter_eq f k o :
  JsObject.get k (JsObject.alter f k o) = f <$> JsObject.get k o.
Proof. by rewrite get_alter, decide_True. Qed.

Lemma get_alter_ne f k k' o :
  k' ≠ k → JsObject.get k (JsObject.alter f k' o) = JsObject.get k o.
Proof. intros. by rewrite get_alter, decide_False. Qed.

Lemma keys_alter f k o : JsObject.keys (JsObject.alter f k o) = JsObject.keys o.
Proof.
  unfold JsObject.keys.
  induction o as [|[k0 v] o IH]; simpl; [done|].
  case_decide; simpl; [done|]. f_equal. exact IH.
Qed.

Lemma get_None_keys k o : JsObject.get k o = None ↔ k ∉ JsObject.keys o.
Proof.
  unfold JsObject.keys.
  induction o as [|[k0 v] o IH]; simpl.
  - split; [intros _; apply not_elem_of_nil|done].
  - rewrite not_elem_of_cons. case_decide as Hk.
    + split; [done|]. by intros [? _].
    + rewrite IH. split; [by split|by intros [_ ?]].
Qed.

Lemma get_Some_keys k o : is_Some (JsObject.get k o) ↔ k ∈ JsObject.keys o.
Proof.
  rewrite <-not_eq_None_Some, get_None_keys.
  split; [apply dec_stable|tauto].
Qed.

Lemma get_set k k' v o :
  JsObject.get k (JsObject.set k' v o)
  = if decide (k' = k) then Some v else JsObject.get k o.
Proof.
  induction o as [|[k0 v0] o IH]; simpl; [by case_decide|].
  repeat (case_decide; simplify_eq/=); try done.
  all: rewrite IH; by repeat (case_decide; simplify_eq/=).
Qed.

Lemma keys_set_fresh k v o :
  JsObject.get k o = None →
  JsObject.keys (JsObject.set k v o) = JsObject.keys o ++ [k].
Proof.
  unfold JsObject.keys.
  induction o as [|[k0 v0] o IH]; simpl; [done|].
  case_decide; [done|]. intros Hk. simpl. f_equal. by apply IH.
Qed.
End JsObject_facts.

(** ** [shuffleArray] *)

Lemma insert_Permutation {A} (l : list A) i x y :
  l !! i = Some x → <[i := y]> l ≡ₚ y :: delete i l.
Proof.
  revert i. induction l as [|z l IH]; intros [|i] Hi; simplify_eq/=; [done|].
  by rewrite (IH i), Permutation_swap.
Qed.

Lemma swap_Permutation {A} (l : list A) i j : swap l i j ≡ₚ l.
Proof.
  unfold swap.
  destruct (l !! i) as [x|] eqn:Hi; [|done].
  destruct (l !! j) as [y|] eqn:Hj; [|done].
  destruct (decide (i = j)) as [->|Hne].
  - simplify_eq. by rewrite list_insert_insert_eq, list_insert_id.
  - assert (<[i := y]> l !! j = Some y) as Hj'
      by (by rewrite list_lookup_insert_ne).
    rewrite (insert_Permutation _ j y x Hj').
    rewrite (delete_Permutation l i x Hi) at 2. f_equiv.
    apply (Permutation_cons_inv (a := y)).
    rewrite <-(delete_Permutation _ j y Hj').
    by apply (insert_Permutation l i x y).
Qed.

Lemma shuffle_from_Permutation {A} rnd k i (l : list A) :
  (shuffle_from rnd k i l).1 ≡ₚ l ∧ (shuffle_from rnd k i l).2 = k + i.
Proof.
  revert k l. induction i as [|i IH]; intros k l; [by rewrite Nat.add_0_r|].
  cbn [shuffle_from]. destruct (IH (S k) (swap l (S i)
    (N.to_nat (random_below rnd k (N.of_nat (S i + 1)))))) as [Hp Hk].
  split; [|lia]. by rewrite Hp, swap_Permutation.
Qed.

(** The shuffled array holds the elements it held, and the shuffle reads one
    draw per element but the first. *)
Lemma shuffleArray_Permutation {A} rnd k (l : list A) :
  (shuffleArray rnd k l).1 ≡ₚ l ∧ (shuffleArray rnd k l).2 = k + (length l - 1).
Proof. apply shuffle_from_Permutation. Qed.

(** ** [submitAnswer] *)

(** The run of [submitAnswer] for a known player on an active question. *)
Lemma submitAnswer_active socket_id rid answer rooms room player q :
  rooms !! rid = Some room →
  JsObject.get socket_id (players room) = Some player →
  active_question room = Some q →
  let currentQid := currentQuestion (currentProgress room) in
  let selected := array_get (allAnswers q) (answer - 1) in
  let isCorrect := bool_decide (selected = Some (correct_answer q)) in
  submitAnswer socket_id rid answer rooms
  = mkOutcome
      (Replied (ReplyMessage "Answer submitted successfully."))
      (<[rid := set_players
                  (JsObject.alter (record_answer currentQid isCorrect)
                                  socket_id (players room)) room]> rooms)
      [Emit (gameMaster room) "playerAnswered"
            (PPlayerAnswered socket_id (name player) selected isCorrect)].
Proof.
  intros Hroom Hplayer Hq. unfold submitAnswer, active_question in *.
  rewrite Hroom, Hplayer. unfold question_slot.
  destruct (roundQuestions (currentProgress room)); try done.
  by rewrite Hq.
Qed.

Lemma record_answer_true qid p :
  currentRoundScore (record_answer qid true p) = currentRoundScore p + 1
  ∧ totalScore (record_answer qid true p) = totalScore p + 1
  ∧ currentRoundAnswers (record_answer qid true p) !! qid = Some true.
Proof. simpl. by rewrite lookup_insert_eq. Qed.

Lemma record_answer_false qid p :
  currentRoundScore (record_answer qid false p) = currentRoundScore p
  ∧ totalScore (record_answer qid false p) = totalScore p
  ∧ currentRoundAnswers (record_answer qid false p) !! qid = Some false.
Proof. simpl. by rewrite lookup_insert_eq. Qed.

(** C1.  In a room that has a player for the socket and a question under the
    current question index, [submitAnswer] replies with success and leaves the
    room with that player updated: when the answer choice selects the correct
    answer, [currentRoundScore] and [totalScore] are each one more than before
    and [currentRoundAnswers] holds [true] at the current question index; when
    it selects anything else, [currentRoundAnswers] holds [false] there and
    both scores are what they were. *)
Theorem submitAnswer_scores socket_id rid answer rooms room player q :
  rooms !! rid = Some room →
  JsObject.get socket_id (players room) = Some player →
  active_question room = Some q →
  ∃ room' player',
    submitAnswer socket_id rid answer rooms
    = mkOutcome (Replied (ReplyMessage "Answer submitted successfully."))
        (<[rid := room']> rooms)
        [Emit (gameMaster room) "playerAnswered"
              (PPlayerAnswered socket_id (name player)
                 (array_get (allAnswers q) (answer - 1))
                 (bool_decide (array_get (allAnswers q) (answer - 1)
                               = Some (correct_answer q))))]
    ∧ JsObject.get socket_id (players room') = Some player'
    ∧ (selects_correct q answer →
         currentRoundScore player' = currentRoundScore player + 1
         ∧ totalScore player' = totalScore player + 1
         ∧ currentRoundAnswers player' !! currentQuestion (currentProgress room)
           = Some true)
    ∧ (¬ selects_correct q answer →
         currentRoundScore player' = currentRoundScore player
         ∧ totalScore player' = totalScore player
         ∧ currentRoundAnswers player' !! currentQuestion (currentProgress room)
           = Some false).
Proof.
  intros Hroom Hplayer Hq.
  rewrite (submitAnswer_active _ _ _ _ _ _ _ Hroom Hplayer Hq).
  eexists _, _. split; [reflexivity|]. simpl.
  rewrite get_alter_eq, Hplayer. split; [reflexivity|].
  unfold selects_correct. split; intros Hsel.
  - rewrite bool_decide_eq_true_2 by done. apply record_answer_true.
  - rewrite bool_decide_eq_false_2 by done. apply record_answer_false.
Qed.

(** C10.  In a room that has a player for the socket and a question under the
    current question index, an answer choice outside [1..length allAnswers]
    is no error: [submitAnswer] replies with success, records [false] at the
    current question index and leaves both scores as they were. *)
Theorem submitAnswer_out_of_range socket_id rid answer rooms room player q :
  rooms !! rid = Some room →
  JsObject.get socket_id (players room) = Some player →
  active_question room = Some q →
  (answer < 1 ∨ Z.of_nat (length (allAnswers q)) < answer)%Z →
  ∃ room' player',
    completion (submitAnswer socket_id rid answer rooms)
    = Replied (ReplyMessage "Answer submitted successfully.")
    ∧ registry (submitAnswer socket_id rid answer rooms) = <[rid := room']> rooms
    ∧ JsObject.get socket_id (players room') = Some player'
    ∧ currentRoundAnswers player' !! currentQuestion (currentProgress room)
      = Some false
    ∧ currentRoundScore player' = currentRoundScore player
    ∧ totalScore player' = totalScore player.
Proof.
  intros Hroom Hplayer Hq Hrange.
  rewrite (submitAnswer_active _ _ _ _ _ _ _ Hroom Hplayer Hq).
  eexists _, _. simpl. do 2 (split; [reflexivity|]). simpl.
  rewrite get_alter_eq, Hplayer. split; [reflexivity|].
  assert (array_get (allAnswers q) (answer - 1) = None) as ->.
  { unfold array_get. case_decide; [|done].
    apply lookup_ge_None. lia. }
  rewrite bool_decide_eq_false_2 by done.
  destruct (record_answer_false (currentQuestion (currentProgress room)) player)
    as (? & ? & ?). done.
Qed.

(** ** [calculateRankings] *)

Section sorting.
Lemma sort_insert_perm x (l : list (string * nat)) :
  sort_insert by_score_desc x l ≡ₚ x :: l.
Proof.
  induction l as [|y l IH]; simpl; [done|].
  case_decide; [done|]. rewrite IH. apply Permutation_swap.
Qed.

Lemma array_sort_perm (l : list (string * nat)) :
  array_sort by_score_desc l ≡ₚ l.
Proof.
  induction l as [|x l IH]; simpl; [done|].
  rewrite sort_insert_perm. by f_equiv.
Qed.

Lemma sort_insert_sorted x (l : list (string * nat)) :
  StronglySorted score_desc l →
  StronglySorted score_desc (sort_insert by_score_desc x l).
Proof.
  induction 1 as [|y l Hl IH Hy]; simpl.
  - repeat constructor.
  - unfold by_score_desc at 1. case_decide as Hc.
    + constructor; [by constructor|].
      constructor; [unfold score_desc; lia|].
      eapply Forall_impl; [exact Hy|].
      unfold score_desc. intros; lia.
    + constructor; [done|].
      rewrite sort_insert_perm. constructor; [|done].
      unfold score_desc. lia.
Qed.

Lemma array_sort_sorted (l : list (string * nat)) :
  StronglySorted score_desc (array_sort by_score_desc l).
Proof.
  induction l as [|x l IH]; simpl; [constructor|].
  by apply sort_insert_sorted.
Qed.
End sorting.

Lemma rankings_of_keys score (ps : list (string * Player)) :
  (rankings_of score ps).*1 ≡ₚ JsObject.keys ps.
Proof.
  unfold rankings_of, JsObject.keys. rewrite array_sort_perm.
  by rewrite <-list_fmap_compose.
Qed.

Lemma rankings_of_NoDup score (ps : list (string * Player)) :
  JsObject.wf ps → NoDup (rankings_of score ps).*1.
Proof. unfold JsObject.wf. by rewrite rankings_of_keys. Qed.

(** Writing a field that a projection does not read leaves the projected
    entries as they were. *)
Lemma alter_fmap_inv {B} (g : Player → B) f k (ps : list (string * Player)) :
  (∀ p, g (f p) = g p) →
  (λ e, (e.1, g e.2)) <$> JsObject.alter f k ps = (λ e, (e.1, g e.2)) <$> ps.
Proof.
  intros Hg. induction ps as [|[k0 p] ps IH]; simpl; [done|].
  case_decide; simpl; [by rewrite Hg|]. f_equal. exact IH.
Qed.

Section rank_loop.
Variable setRank : option nat → Player → Player.
Variable rankings : list (string * nat).

Lemma loop_prefix_S ps n :
  loop_prefix setRank rankings ps (S n)
  = rank_step setRank rankings (loop_prefix setRank rankings ps n) n.
Proof. unfold loop_prefix. by rewrite seq_S, foldl_app. Qed.

Lemma loop_prefix_rank ps n :
  n < length rankings →
  (loop_prefix setRank rankings ps (S n)).1 = dense_rank rankings.*2 n.
Proof.
  induction n as [|n IH]; intros Hn.
  - rewrite loop_prefix_S. unfold rank_step.
    by destruct (rankings !! 0) as [[id s]|].
  - rewrite loop_prefix_S. unfold rank_step.
    destruct (lookup_lt_is_Some_2 rankings (S n) Hn) as [[id s] Hi].
    rewrite Hi. simpl. rewrite Nat.sub_0_r.
    rewrite !list_lookup_fmap, Hi. simpl.
    destruct (rankings !! n) as [[id' s']|] eqn:Hp; simpl.
    + destruct (decide (s = s')) as [->|Hne].
      * rewrite decide_False by (intros [_ ?]; done).
        rewrite decide_True by done. apply IH. lia.
      * rewrite decide_True by (split; [lia|congruence]).
        rewrite decide_False by congruence. done.
    + apply lookup_ge_None in Hp. lia.
Qed.

Lemma loop_prefix_keys ps n :
  JsObject.keys (loop_prefix setRank rankings ps n).2 = JsObject.keys ps.
Proof.
  induction n as [|n IH]; [done|].
  rewrite loop_prefix_S. unfold rank_step.
  destruct (rankings !! n) as [[id s]|]; [|done]. simpl.
  by rewrite keys_alter.
Qed.

Lemma loop_prefix_get ps n :
  NoDup rankings.*1 → n ≤ length rankings →
  ∀ id,
    JsObject.get id (loop_prefix setRank rankings ps n).2
    = match list_find (λ e, e.1 = id) (take n rankings) with
      | Some (i, _) =>
          setRank (Some (dense_rank rankings.*2 i)) <$> JsObject.get id ps
      | None => JsObject.get id ps
      end.
Proof.
  intros Hnd. induction n as [|n IH]; intros Hn id; [done|].
  rewrite loop_prefix_S. unfold rank_step.
  destruct (lookup_lt_is_Some_2 rankings n) as [[idn s] Hi]; [lia|].
  rewrite Hi. cbn [snd fst].
  rewrite (take_S_r _ _ _ Hi).
  assert (list_find (λ e, e.1 = idn) (take n rankings) = None) as Hfresh.
  { apply list_find_None, Forall_forall. intros [id' s'] Hin Heq.
    simpl in Heq. subst id'.
    apply list_elem_of_lookup in Hin as [j Hj].
    apply lookup_take_Some in Hj as [Hj Hlt].
    assert (j = n); [|lia].
    eapply NoDup_lookup; [exact Hnd|..]; rewrite list_lookup_fmap.
    - by rewrite Hj.
    - by rewrite Hi. }
  assert ((if decide (0 < n ∧ Some s ≠ snd <$> rankings !! (n - 1))
           then n + 1 else (loop_prefix setRank rankings ps n).1)
          = dense_rank rankings.*2 n) as ->.
  { pose proof (loop_prefix_rank ps n) as Hr.
    rewrite loop_prefix_S in Hr. unfold rank_step in Hr.
    rewrite Hi in Hr. apply Hr. lia. }
  rewrite get_alter, IH by lia.
  destruct (decide (idn = id)) as [->|Hne].
  - rewrite list_find_app_r, Hfresh by done. simpl.
    rewrite decide_True by done. simpl.
    by rewrite length_take, Nat.min_l by lia.
  - destruct (list_find (λ e, e.1 = id) (take n rankings)) as [[i e]|] eqn:Hf.
    + by rewrite (list_find_app_l _ _ _ _ _ Hf).
    + rewrite list_find_app_r by done. simpl.
      by rewrite decide_False.
Qed.
End rank_loop.

Lemma get_Some_elem {A} k (v : A) (o : list (string * A)) :
  JsObject.get k o = Some v → (k, v) ∈ o.
Proof.
  induction o as [|[k0 v0] o IH]; simpl; [done|].
  case_decide; [intros [= ->]; subst; left|right; auto].
Qed.

Lemma elem_get_Some {A} k (v : A) (o : list (string * A)) :
  JsObject.wf o → (k, v) ∈ o → JsObject.get k o = Some v.
Proof.
  unfold JsObject.wf, JsObject.keys.
  induction o as [|[k0 v0] o IH]; simpl; [by intros _ ?%elem_of_nil|].
  intros [Hk0 Hnd]%NoDup_cons [[= -> ->]|Hin]%elem_of_cons.
  - by rewrite decide_True.
  - rewrite decide_False; [by apply IH|].
    intros ->. apply Hk0. apply list_elem_of_fmap. by exists (k, v).
Qed.

Lemma rank_loop_get setRank rankings ps i id s :
  NoDup rankings.*1 → rankings !! i = Some (id, s) →
  JsObject.get id (rank_loop setRank rankings ps)
  = setRank (Some (dense_rank rankings.*2 i)) <$> JsObject.get id ps.
Proof.
  intros Hnd Hi. unfold rank_loop.
  rewrite loop_prefix_get, take_ge by done.
  assert (list_find (λ e, e.1 = id) rankings = Some (i, (id, s))) as ->.
  { apply list_find_Some. split_and!; [done..|].
    intros j [id' s'] Hj Hlt Heq. simpl in Heq. subst id'.
    assert (j = i); [|lia].
    eapply NoDup_lookup; [exact Hnd|..]; rewrite list_lookup_fmap.
    - by rewrite Hj.
    - by rewrite Hi. }
  done.
Qed.

Lemma rank_loop_entries {B} (g : Player → B) setRank rankings ps :
  (∀ r p, g (setRank r p) = g p) →
  (λ e, (e.1, g e.2)) <$> rank_loop setRank rankings ps
  = (λ e, (e.1, g e.2)) <$> ps.
Proof.
  intros Hg. unfold rank_loop, loop_prefix.
  induction (length rankings) as [|n IH]; [done|].
  rewrite seq_S, foldl_app. simpl. unfold rank_step at 1.
  destruct (rankings !! n) as [[id s]|]; [|done]. simpl.
  by rewrite alter_fmap_inv.
Qed.

Lemma rank_loop_keys setRank rankings ps :
  JsObject.keys (rank_loop setRank rankings ps) = JsObject.keys ps.
Proof. apply loop_prefix_keys. Qed.

(** All scores equal: every position has rank 1. *)
Lemma dense_rank_all_equal scores c i :
  Forall (λ s, s = c) scores → i < length scores → dense_rank scores i = 1.
Proof.
  intros Hall. induction i as [|i IH]; intros Hi; simpl; [done|].
  rewrite decide_True; [apply IH; lia|].
  destruct (lookup_lt_is_Some_2 scores (S i)) as [a Ha]; [lia|].
  destruct (lookup_lt_is_Some_2 scores i) as [b Hb]; [lia|].
  rewrite Ha, Hb. f_equal.
  rewrite Forall_lookup in Hall.
  by rewrite (Hall _ _ Ha), (Hall _ _ Hb).
Qed.

(** The player at position [i] of a ranking array, and what
    [calculateRankings] leaves under its id. *)
Lemma calculateRankings_get room id p :
  JsObject.wf (players room) →
  JsObject.get id (players room) = Some p →
  let roundRankings := rankings_of currentRoundScore (players room) in
  let overallRankings := rankings_of totalScore (players room) in
  ∃ i j,
    roundRankings !! i = Some (id, currentRoundScore p)
    ∧ overallRankings !! j = Some (id, totalScore p)
    ∧ JsObject.get id (players (calculateRankings room))
      = Some (set_overallRank (Some (dense_rank overallRankings.*2 j))
                (set_endOfRoundRank (Some (dense_rank roundRankings.*2 i)) p)).
Proof.
  intros Hwf Hget rr1 rr2.
  assert (∀ score, ∃ i, rankings_of score (players room) !! i = Some (id, score p))
    as Hpos.
  { intros score. apply list_elem_of_lookup. unfold rankings_of.
    rewrite array_sort_perm. apply list_elem_of_fmap.
    exists (id, p). split; [done|]. by apply get_Some_elem. }
  destruct (Hpos currentRoundScore) as [i Hi], (Hpos totalScore) as [j Hj].
  exists i, j. split_and!; [done..|].
  unfold calculateRankings, JsObject.entries. simpl.
  assert (rankings_of totalScore
            (rank_loop set_endOfRoundRank
               (rankings_of currentRoundScore (players room)) (players room))
          = rr2) as ->.
  { unfold rr2, rankings_of. by rewrite rank_loop_entries. }
  rewrite (rank_loop_get _ _ _ j id (totalScore p))
    by (by apply rankings_of_NoDup || done).
  rewrite (rank_loop_get _ _ _ i id (currentRoundScore p))
    by (by apply rankings_of_NoDup || done).
  by rewrite Hget.
Qed.

(** The id at a position of a ranking array names a player of the room, with
    the score the array shows. *)
Lemma rankings_of_lookup score (ps : list (string * Player)) i id s :
  JsObject.wf ps → rankings_of score ps !! i = Some (id, s) →
  ∃ p, JsObject.get id ps = Some p ∧ s = score p.
Proof.
  intros Hwf Hi.
  assert ((id, s) ∈ (λ e, (e.1, score e.2)) <$> ps) as Hin.
  { rewrite <-(array_sort_perm _). by eapply list_elem_of_lookup_2. }
  apply list_elem_of_fmap in Hin as ([id' p] & [= -> ->] & Hin).
  exists p. split; [|done]. by apply elem_get_Some.
Qed.

Lemma rankings_of_position score (ps : list (string * Player)) i j id s s' :
  JsObject.wf ps →
  rankings_of score ps !! i = Some (id, s) →
  rankings_of score ps !! j = Some (id, s') → i = j.
Proof.
  intros Hwf Hi Hj.
  eapply NoDup_lookup; [by apply (rankings_of_NoDup score)|..];
    rewrite list_lookup_fmap.
  - by rewrite Hi.
  - by rewrite Hj.
Qed.

Lemma calculateRankings_round_order room :
  JsObject.wf (players room) →
  let roundRankings := rankings_of currentRoundScore (players room) in
  ranks_in_order endOfRoundRank roundRankings (players (calculateRankings room))
  = Some <$> spec_ranks roundRankings.*2.
Proof.
  intros Hwf rr. apply list_eq. intros i.
  unfold ranks_in_order, spec_ranks.
  rewrite !list_lookup_fmap, length_fmap.
  destruct (rr !! i) as [[id s]|] eqn:Hi; cbn [fmap option_fmap option_map fst].
  - destruct (rankings_of_lookup _ _ _ _ _ Hwf Hi) as (p & Hp & ->).
    destruct (calculateRankings_get room id p Hwf Hp) as (i' & j & Hi' & _ & ->).
    rewrite (rankings_of_position _ _ _ _ _ _ _ Hwf Hi Hi').
    rewrite lookup_seq_lt by (by eapply lookup_lt_Some). done.
  - apply lookup_ge_None in Hi. by rewrite lookup_seq_ge.
Qed.

Lemma calculateRankings_overall_order room :
  JsObject.wf (players room) →
  let overallRankings := rankings_of totalScore (players room) in
  ranks_in_order overallRank overallRankings (players (calculateRankings room))
  = Some <$> spec_ranks overallRankings.*2.
Proof.
  intros Hwf rr. apply list_eq. intros j.
  unfold ranks_in_order, spec_ranks.
  rewrite !list_lookup_fmap, length_fmap.
  destruct (rr !! j) as [[id s]|] eqn:Hj; cbn [fmap option_fmap option_map fst].
  - destruct (rankings_of_lookup _ _ _ _ _ Hwf Hj) as (p & Hp & ->).
    destruct (calculateRankings_get room id p Hwf Hp) as (i & j' & _ & Hj' & ->).
    rewrite (rankings_of_position _ _ _ _ _ _ _ Hwf Hj Hj').
    rewrite lookup_seq_lt by (by eapply lookup_lt_Some). done.
  - apply lookup_ge_None in Hj. by rewrite lookup_seq_ge.
Qed.

Lemma rankings_of_all_equal score (ps : list (string * Player)) c :
  (∀ id p, JsObject.get id ps = Some p → score p = c) →
  JsObject.wf ps →
  Forall (λ s, s = c) (rankings_of score ps).*2.
Proof.
  intros Hall Hwf. apply Forall_lookup. intros i s.
  rewrite list_lookup_fmap.
  destruct (rankings_of score ps !! i) as [[id s']|] eqn:Hi; [|done].
  intros [= <-]. simpl.
  destruct (rankings_of_lookup _ _ _ _ _ Hwf Hi) as (p & Hp & ->). eauto.
Qed.

(** C2.  For the players of a room, [calculateRankings] ranks by
    [currentRoundScore] into [endOfRoundRank] and by [totalScore] into
    [overallRank].  Each ranking array holds the players, sorted so that
    scores never increase; read in that order, the ranks written are the
    ranks of the scheme: 1 for the first player, the previous player's rank
    on an equal score, the 1-based position otherwise.  Round scores 10, 10, 7
    come out as ranks 1, 1, 3; total scores 5, 4, 3, 3, 1 as 1, 2, 3, 3, 5;
    and when all players have the same score every player gets rank 1. *)
Theorem calculateRankings_dense_ranks room :
  JsObject.wf (players room) →
  let roundRankings := rankings_of currentRoundScore (players room) in
  let overallRankings := rankings_of totalScore (players room) in
  let ranked := players (calculateRankings room) in
  (roundRankings ≡ₚ (λ e, (e.1, currentRoundScore e.2)) <$> players room
   ∧ StronglySorted score_desc roundRankings
   ∧ ranks_in_order endOfRoundRank roundRankings ranked
     = Some <$> spec_ranks roundRankings.*2)
  ∧ (overallRankings ≡ₚ (λ e, (e.1, totalScore e.2)) <$> players room
     ∧ StronglySorted score_desc overallRankings
     ∧ ranks_in_order overallRank overallRankings ranked
       = Some <$> spec_ranks overallRankings.*2)
  ∧ (∀ scores i,
       dense_rank scores 0 = 1
       ∧ (scores !! S i = scores !! i →
          dense_rank scores (S i) = dense_rank scores i)
       ∧ (scores !! S i ≠ scores !! i → dense_rank scores (S i) = S i + 1))
  ∧ (let r := calculateRankings Sample.trio in
     (rankings_of currentRoundScore (players Sample.trio)).*2 = [10; 10; 7]
     ∧ ranks_in_order endOfRoundRank
         (rankings_of currentRoundScore (players Sample.trio)) (players r)
       = [Some 1; Some 1; Some 3])
  ∧ (let r := calculateRankings Sample.quintet in
     (rankings_of totalScore (players Sample.quintet)).*2 = [5; 4; 3; 3; 1]
     ∧ ranks_in_order overallRank
         (rankings_of totalScore (players Sample.quintet)) (players r)
       = [Some 1; Some 2; Some 3; Some 3; Some 5])
  ∧ (∀ c, (∀ id p, JsObject.get id (players room) = Some p →
             currentRoundScore p = c) →
          ∀ id p', JsObject.get id ranked = Some p' →
             endOfRoundRank p' = Some 1)
  ∧ (∀ c, (∀ id p, JsObject.get id (players room) = Some p →
             totalScore p = c) →
          ∀ id p', JsObject.get id ranked = Some p' →
             overallRank p' = Some 1).
Proof.
  intros Hwf rr1 rr2 ranked.
  assert (∀ id p', JsObject.get id ranked = Some p' →
            ∃ p, JsObject.get id (players room) = Some p) as Hback.
  { intros id p' Hp'. apply get_Some_keys.
    unfold ranked, calculateRankings, JsObject.entries in *. simpl in Hp'.
    rewrite <-(rank_loop_keys set_endOfRoundRank rr1),
            <-(rank_loop_keys set_overallRank
                 (rankings_of totalScore
                    (rank_loop set_endOfRoundRank rr1 (players room)))).
    apply get_Some_keys. eauto. }
  split_and!.
  - apply array_sort_perm.
  - apply array_sort_sorted.
  - by apply calculateRankings_round_order.
  - apply array_sort_perm.
  - apply array_sort_sorted.
  - by apply calculateRankings_overall_order.
  - intros scores i. simpl. split_and!; [done|..]; intros Hs.
    + by rewrite decide_True.
    + by rewrite decide_False.
  - by vm_compute.
  - by vm_compute.
  - intros c Hall id p' Hp'. destruct (Hback _ _ Hp') as [p Hp].
    destruct (calculateRankings_get room id p Hwf Hp) as (i & j & Hi & _ & Heq).
    fold ranked in Heq. rewrite Heq in Hp'. injection Hp' as <-. simpl.
    f_equal. apply (dense_rank_all_equal _ c).
    + by apply rankings_of_all_equal.
    + rewrite length_fmap. by eapply lookup_lt_Some.
  - intros c Hall id p' Hp'. destruct (Hback _ _ Hp') as [p Hp].
    destruct (calculateRankings_get room id p Hwf Hp) as (i & j & _ & Hj & Heq).
    fold ranked in Heq. rewrite Heq in Hp'. injection Hp' as <-. simpl.
    f_equal. apply (dense_rank_all_equal _ c).
    + by apply rankings_of_all_equal.
    + rewrite length_fmap. by eapply lookup_lt_Some.
Qed.

(** ** [generateRound]: the next category *)

Lemma indexOf_from_first c rounds i k :
  rounds !! i = Some c → (∀ j, j < i → rounds !! j ≠ Some c) →
  indexOf_from (CatId c) rounds k = (k + Z.of_nat i)%Z.
Proof.
  revert i k. induction rounds as [|c0 rounds IH]; intros i k Hi Hfirst; [done|].
  simpl. destruct i as [|i]; simpl in Hi.
  - injection Hi as ->. rewrite decide_True by done. lia.
  - rewrite decide_False.
    + rewrite (IH i) by (done || intros j Hj; apply (Hfirst (S j)); lia). lia.
    + intros [= ->]. by apply (Hfirst 0); [lia|].
Qed.

Lemma indexOf_first c rounds i :
  rounds !! i = Some c → (∀ j, j < i → rounds !! j ≠ Some c) →
  indexOf (CatId c) rounds = Z.of_nat i.
Proof. intros. unfold indexOf. by rewrite (indexOf_from_first c rounds i). Qed.

Lemma round_at_lookup rounds i c :
  rounds !! i = Some c → round_at rounds (Z.of_nat i) = CatId c.
Proof.
  intros Hi. unfold round_at, array_get.
  rewrite decide_True by lia. by rewrite Nat2Z.id, Hi.
Qed.

(** What [generateRound] does once the next category is chosen. *)
Lemma generateRound_next provider rnd k cur rounds mode qpr room next :
  nextCategoryId cur rounds = Some next →
  generateRound provider rnd k cur rounds mode qpr room
  = match provider (OpenTrivia.mkRequest qpr next
                      (default "easy" (difficultyMap mode))) with
    | None => RoundThrew
    | Some results =>
        RoundReturned (RQObject (format_questions rnd k 0 results ∅).1)
                      (set_currentRound next room)
                      (format_questions rnd k 0 results ∅).2
    end.
Proof.
  intros Hnext. unfold generateRound. rewrite Hnext.
  destruct (provider _) as [results|]; [|done].
  by destruct (format_questions rnd k 0 results ∅).
Qed.

(** The questions object: outside [index + 1 .. index + N] it is what it
    was; the [i]-th result sits under [index + 1 + i], with the answers of
    the provider in some order. *)
Lemma format_questions_frame rnd k index results acc j :
  (j ≤ index ∨ index + Z.of_nat (length results) < j)%Z →
  (format_questions rnd k index results acc).1 !! j = acc !! j.
Proof.
  revert k index acc. induction results as [|qd results IH];
    intros k index acc Hj; simpl; [done|].
  destruct (shuffleArray _ _ _) as [answers k'].
  rewrite IH by (simpl in Hj; lia).
  apply lookup_insert_ne. simpl in Hj. lia.
Qed.

Lemma format_questions_lookup rnd k index results acc i qd :
  results !! i = Some qd →
  ∃ answers,
    (format_questions rnd k index results acc).1 !! (index + 1 + Z.of_nat i)%Z
    = Some (mkQuestion (OpenTrivia.question qd) (OpenTrivia.correct_answer qd)
                       answers)
    ∧ answers ≡ₚ OpenTrivia.correct_answer qd :: OpenTrivia.incorrect_answers qd.
Proof.
  revert k index acc i. induction results as [|qd0 results IH];
    intros k index acc i Hi; [done|]. simpl.
  destruct (shuffleArray rnd k _) as [answers k'] eqn:Hsh.
  destruct i as [|i]; simpl in Hi.
  - injection Hi as ->. exists answers. split.
    + rewrite format_questions_frame by lia.
      replace (index + 1 + Z.of_nat 0)%Z with (index + 1)%Z by lia.
      apply lookup_insert_eq.
    + pose proof (shuffleArray_Permutation rnd k
        (OpenTrivia.correct_answer qd :: OpenTrivia.incorrect_answers qd)) as [Hp _].
      by rewrite Hsh in Hp.
  - destruct (IH k' (index + 1)%Z
                (<[(index + 1)%Z := mkQuestion (OpenTrivia.question qd0)
                     (OpenTrivia.correct_answer qd0) answers]> acc) i Hi)
      as (answers' & Hlook & Hperm).
    exists answers'. split; [|done].
    by replace (index + 1 + Z.of_nat (S i))%Z
      with (index + 1 + 1 + Z.of_nat i)%Z by lia.
Qed.

(** C3.  The next category of [generateRound]: with no current category it is
    [rounds[0]]; with a current category whose first index in the plan is [i],
    it is [rounds[i + 1]] when [i] is not the last index, and when [i] is the
    last index the call returns the value "end of round": it does not throw
    and the value is not a question set.  The category chosen is the one the
    provider is asked for and the one stored as the room's current round. *)
Theorem generateRound_next_category rounds :
  nextCategoryId CatNull rounds = Some (round_at rounds 0)
  ∧ (∀ c i, rounds !! i = Some c → (∀ j, j < i → rounds !! j ≠ Some c) →
       (∀ c', rounds !! (i + 1) = Some c' →
          nextCategoryId (CatId c) rounds = Some (CatId c'))
       ∧ (i + 1 = length rounds →
          nextCategoryId (CatId c) rounds = None
          ∧ ∀ provider rnd k mode qpr room,
              generateRound provider rnd k (CatId c) rounds mode qpr room
              = RoundReturned RQEndOfRound room k))
  ∧ (∀ cur next provider rnd k mode qpr room,
       nextCategoryId cur rounds = Some next →
       match generateRound provider rnd k cur rounds mode qpr room with
       | RoundReturned value room' _ =>
           (∃ qs, value = RQObject qs)
           ∧ currentRound (currentProgress room') = next
           ∧ is_Some (provider (OpenTrivia.mkRequest qpr next
                                  (default "easy" (difficultyMap mode))))
       | RoundThrew =>
           provider (OpenTrivia.mkRequest qpr next
                       (default "easy" (difficultyMap mode))) = None
       end).
Proof.
  split_and!; [done|..].
  - intros c i Hi Hfirst. split.
    + intros c' Hnext. unfold nextCategoryId.
      rewrite (indexOf_first c rounds i) by done.
      apply lookup_lt_Some in Hnext as Hlt.
      rewrite decide_True by lia.
      replace (Z.of_nat i + 1)%Z with (Z.of_nat (i + 1)) by lia.
      by rewrite (round_at_lookup _ _ c').
    + intros Hlast.
      assert (nextCategoryId (CatId c) rounds = None) as Hnone.
      { unfold nextCategoryId. rewrite (indexOf_first c rounds i) by done.
        rewrite decide_False by lia. done. }
      split; [done|]. intros. unfold generateRound. by rewrite Hnone.
  - intros cur next provider rnd k mode qpr room Hnext.
    rewrite (generateRound_next _ _ _ _ _ _ _ _ _ Hnext).
    destruct (provider _) as [results|]; [|done]. eauto.
Qed.

(** ** [nextRound] *)

(** [generateRound] writes [currentRound] and nothing else. *)
Lemma generateRound_progress provider rnd k cur plan m qpr room value room1 k' :
  generateRound provider rnd k cur plan m qpr room = RoundReturned value room1 k' →
  currentQuestion (currentProgress room1) = currentQuestion (currentProgress room)
  ∧ roundQuestions (currentProgress room1) = roundQuestions (currentProgress room)
  ∧ players room1 = players room.
Proof.
  unfold generateRound. destruct (nextCategoryId _ _); [|by intros [= _ <- _]].
  destruct (provider _); [|done].
  destruct (format_questions _ _ _ _ _). by intros [= _ <- _].
Qed.

Lemma reset_player_idemp p : reset_player (reset_player p) = reset_player p.
Proof. done. Qed.

Lemma foldl_alter_get {V} (f : V → V) ks (o : list (string * V)) k :
  (∀ v, f (f v) = f v) →
  JsObject.get k (foldl (λ o k', JsObject.alter f k' o) o ks)
  = if decide (k ∈ ks) then f <$> JsObject.get k o else JsObject.get k o.
Proof.
  intros Hf. revert o. induction ks as [|k0 ks IH]; intros o; simpl.
  - done.
  - rewrite IH, get_alter.
    destruct (decide (k0 = k)) as [->|Hne].
    + rewrite (decide_True (P := k ∈ k :: ks)) by left.
      case_decide; [|done].
      destruct (JsObject.get k o); simpl; [by rewrite Hf|done].
    + destruct (decide (k ∈ ks)) as [Hin|Hnin].
      * by rewrite decide_True by (by right).
      * rewrite decide_False; [done|].
        by intros [?|?]%elem_of_cons.
Qed.

Lemma foldl_alter_keys {V} (f : V → V) ks (o : list (string * V)) :
  JsObject.keys (foldl (λ o k', JsObject.alter f k' o) o ks) = JsObject.keys o.
Proof.
  revert o. induction ks as [|k0 ks IH]; intros o; simpl; [done|].
  by rewrite IH, keys_alter.
Qed.

Lemma reset_players_get ps id :
  JsObject.get id (reset_players ps) = reset_player <$> JsObject.get id ps.
Proof.
  unfold reset_players. rewrite foldl_alter_get by apply reset_player_idemp.
  case_decide as Hin; [done|].
  apply get_None_keys in Hin. by rewrite Hin.
Qed.

(** C4.  When [nextRound] replies with the room, [generateRound] returned a
    value and the room now holds it as [roundQuestions]; [currentQuestion] is
    1; the room has the players it had, and each of them has
    [currentRoundScore] 0, no [currentRoundAnswers] and no [endOfRoundRank],
    with [totalScore], [overallRank] and [name] as before. *)
Theorem nextRound_resets w rid rooms room' :
  completion (nextRound w rid rooms) = Replied (ReplyRoom room') →
  ∃ room value room1 k',
    rooms !! rid = Some room
    ∧ generateRound (provider w) (random w) (position w)
        (currentRound (currentProgress room)) (rounds room) (mode room)
        (questionPerRound room) room = RoundReturned value room1 k'
    ∧ registry (nextRound w rid rooms) = <[rid := room']> rooms
    ∧ roundQuestions (currentProgress room') = value
    ∧ currentQuestion (currentProgress room') = 1%Z
    ∧ JsObject.keys (players room') = JsObject.keys (players room)
    ∧ ∀ id p, JsObject.get id (players room) = Some p →
        ∃ p', JsObject.get id (players room') = Some p'
          ∧ currentRoundScore p' = 0
          ∧ currentRoundAnswers p' = ∅
          ∧ endOfRoundRank p' = None
          ∧ totalScore p' = totalScore p
          ∧ overallRank p' = overallRank p
          ∧ name p' = name p.
Proof.
  unfold nextRound. destruct (rooms !! rid) as [room|] eqn:Hroom; [|done].
  destruct (generateRound _ _ _ _ _ _ _ _) as [value room1 k'|] eqn:Hgen; [|done].
  simpl. intros [= <-]. exists room, value, room1, k'.
  destruct (generateRound_progress _ _ _ _ _ _ _ _ _ _ _ Hgen) as (_ & _ & Hps).
  split_and!; try done; simpl; rewrite Hps.
  - apply foldl_alter_keys.
  - intros id p Hp. rewrite reset_players_get, Hp. simpl. eauto 10.
Qed.

(** ** [playerJoin] *)

Lemma set_fresh_wf {V} k (v : V) (o : list (string * V)) :
  JsObject.get k o = None → JsObject.wf o → JsObject.wf (JsObject.set k v o).
Proof.
  intros Hk Hwf. unfold JsObject.wf. rewrite keys_set_fresh by done.
  apply NoDup_app. split_and!; [done| |apply NoDup_singleton].
  intros k' Hin ->%list_elem_of_singleton. by apply get_None_keys in Hk.
Qed.

(** C5.  In a room whose quiz has started, [playerJoin] replies with
    [QuizAlreadyStarted] and the registry, hence the players of the room, is
    what it was.  In a room still in the lobby, a join from a socket that
    already has a player replies with the room as it is: the registry is
    unchanged, so the player's record is and no second record appears.  In
    particular a join repeated after a join that succeeded gets the same
    room back and changes nothing. *)
Theorem playerJoin_guards socket_id rid name rooms room :
  rooms !! rid = Some room →
  (quizStarted room = true →
     playerJoin socket_id rid name rooms
     = mkOutcome (Replied (ReplyError QuizAlreadyStarted)) rooms [])
  ∧ (quizStarted room = false →
     ∀ p, JsObject.get socket_id (players room) = Some p →
       playerJoin socket_id rid name rooms
       = mkOutcome (Replied (ReplyRoom room)) rooms [])
  ∧ (∀ joined,
       completion (playerJoin socket_id rid name rooms)
       = Replied (ReplyRoom joined) →
       let rooms1 := registry (playerJoin socket_id rid name rooms) in
       is_Some (JsObject.get socket_id (players joined))
       ∧ (JsObject.wf (players room) → JsObject.wf (players joined))
       ∧ ∀ name',
           playerJoin socket_id rid name' rooms1
           = mkOutcome (Replied (ReplyRoom joined)) rooms1 []).
Proof.
  intros Hroom. unfold playerJoin. rewrite Hroom. split_and!.
  - by intros ->.
  - intros -> p Hp. by rewrite Hp.
  - destruct (quizStarted room) eqn:Hq; [done|].
    destruct (JsObject.get socket_id (players room)) as [p|] eqn:Hp; simpl.
    + intros joined [= <-]. split_and!; [by rewrite Hp|done|].
      intros name'. by rewrite Hroom, Hq, Hp.
    + intros joined [= <-]. simpl.
      assert (JsObject.get socket_id
                (JsObject.set socket_id (initializePlayer name) (players room))
              = Some (initializePlayer name)) as Hnew.
      { by rewrite get_set, decide_True. }
      split_and!; [by rewrite Hnew|by apply set_fresh_wf|].
      intros name'. rewrite lookup_insert_eq. simpl. by rewrite Hq, Hnew.
Qed.

(** ** [generateUniqueRoomId] and [create] *)

Lemma generateUniqueRoomId_Some fuel rnd k rooms code k' :
  generateUniqueRoomId fuel rnd k rooms = Some (code, k') →
  ∃ n, k ≤ n ∧ k' = S n ∧ code = room_code rnd n ∧ rooms !! code = None
       ∧ ∀ m, k ≤ m < n → is_Some (rooms !! room_code rnd m).
Proof.
  revert k. induction fuel as [|fuel IH]; intros k; simpl; [done|].
  case_decide as Hex.
  - intros (n & ? & ? & ? & ? & Hbefore)%IH.
    exists n. split_and!; [lia|done..|].
    intros m Hm. destruct (decide (m = k)) as [->|]; [done|].
    apply Hbefore. lia.
  - intros [= <- <-]. exists k. split_and!; [done..| |intros; lia].
    by apply eq_None_not_Some.
Qed.

(** C6.  [create] registers a room only when the first round was generated.
    When the provider fails on the request for the first category, the reply
    is the error [QuestionGenerationFailed] and the registry is what it was;
    when it answers, the reply is the new room and the registry gains that
    room under its [roomId], a code that was free.  Whenever the reply is not
    a room, the registry is unchanged. *)
Theorem create_atomic w socket_id qtl qpr plan m rooms :
  let o := create w socket_id qtl qpr plan m rooms in
  let request :=
    OpenTrivia.mkRequest (default 5%Z qpr) (round_at plan 0)
                         (default "easy" (difficultyMap m)) in
  ((∀ room, completion o ≠ Replied (ReplyRoom room)) → registry o = rooms)
  ∧ (provider w request = None →
       registry o = rooms ∧ ∀ room, completion o ≠ Replied (ReplyRoom room))
  ∧ ∀ code k,
      generateUniqueRoomId (fuel w) (random w) (position w) rooms
      = Some (code, k) →
      (provider w request = None →
         o = mkOutcome (Replied (ReplyError QuestionGenerationFailed)) rooms [])
      ∧ (∀ results, provider w request = Some results →
           ∃ room,
             o = mkOutcome (Replied (ReplyRoom room)) (<[code := room]> rooms)
                           [SocketJoin socket_id code]
             ∧ roomId room = code
             ∧ rooms !! code = None
             ∧ registry o !! code = Some room
             ∧ roundQuestions (currentProgress room)
               = RQObject (format_questions (random w) k 0 results ∅).1
             ∧ currentRound (currentProgress room) = round_at plan 0
             ∧ players room = [] ∧ quizStarted room = false).
Proof.
  intros o request. subst o. unfold create, createRoom.
  destruct (generateUniqueRoomId _ _ _ _) as [[code k]|] eqn:Hid; simpl.
  - rewrite (generateRound_next _ _ _ _ _ _ _ _ (round_at plan 0)) by done.
    fold request.
    destruct (provider w request) as [results|] eqn:Hprov; simpl.
    + split_and!.
      * intros Hno. by edestruct Hno.
      * done.
      * intros ? ? [= <- <-]. split; [done|].
        intros ? [= <-]. eexists. split_and!; try reflexivity.
        -- by apply generateUniqueRoomId_Some in Hid as (? & ? & ? & ? & ? & ?).
        -- by rewrite lookup_insert_eq.
    + by split_and!.
  - by split_and!.
Qed.

(** ** [startQuiz] *)

(** C7 as stated fails: a room whose quiz has started, with one player,
    accepts [startQuiz] again. *)
Lemma startQuiz_accepted_after_start :
  (quizStarted Sample.started1 = true
   ∧ startQuiz "482913" (Sample.registry_of Sample.started1)
     = mkOutcome (Replied (ReplyText "Quiz started successfully"))
         (Sample.registry_of Sample.started1)
         [Emit "482913" "quiz:started" (PMessage "The quiz has started!")])
  ∧ ¬ (∀ rid rooms room,
         rooms !! rid = Some room → quizStarted room = true →
         ∃ e, completion (startQuiz rid rooms) = Replied (ReplyError e)).
Proof.
  split; [split; vm_compute; reflexivity|].
  intros Hclaim.
  destruct (Hclaim "482913" (Sample.registry_of Sample.started1) Sample.started1)
    as [e He]; [by vm_compute..|].
  vm_compute in He. discriminate He.
Qed.

(** C7, amended.  [startQuiz] does not look at [quizStarted]: in any room, it
    replies with [NoPlayers] and changes nothing when the room has no
    players, and otherwise replies with success and leaves the room with
    [quizStarted] true and everything else as it was. *)
Theorem startQuiz_needs_players rid rooms room :
  rooms !! rid = Some room →
  (players room = [] →
     startQuiz rid rooms = mkOutcome (Replied (ReplyError NoPlayers)) rooms [])
  ∧ (players room ≠ [] →
     startQuiz rid rooms
     = mkOutcome (Replied (ReplyText "Quiz started successfully"))
         (<[rid := set_quizStarted true room]> rooms)
         [Emit (roomId room) "quiz:started" (PMessage "The quiz has started!")]
     ∧ quizStarted (set_quizStarted true room) = true).
Proof.
  intros Hroom. unfold startQuiz. rewrite Hroom. split.
  - by intros ->.
  - intros Hne. destruct (players room) as [|e ps] eqn:Hps; [done|].
    by rewrite decide_False.
Qed.

(** ** Room codes *)

Lemma pretty_N_char_digit x : is_digit (pretty_N_char x).
Proof.
  unfold is_digit, pretty_N_char.
  repeat case_match; by compute.
Qed.

Lemma pretty_six_digits (n : N) :
  (100000 ≤ n ≤ 999999)%N → six_digit_code (pretty n).
Proof.
  intros Hn. unfold six_digit_code.
  assert (pretty n
          = String (pretty_N_char ((n `div` 100000) `mod` 10))
             (String (pretty_N_char ((n `div` 10000) `mod` 10))
               (String (pretty_N_char ((n `div` 1000) `mod` 10))
                 (String (pretty_N_char ((n `div` 100) `mod` 10))
                   (String (pretty_N_char ((n `div` 10) `mod` 10))
                     (String (pretty_N_char (n `mod` 10)) ""))))))%N as Heq.
  { unfold pretty, pretty_N. rewrite decide_False by lia.
    rewrite pretty_N_go_step by lia.
    rewrite pretty_N_go_step by (apply N.div_str_pos; lia).
    rewrite !N.Div0.div_div.
    rewrite pretty_N_go_step by (apply N.div_str_pos; lia).
    rewrite !N.Div0.div_div.
    rewrite pretty_N_go_step by (apply N.div_str_pos; lia).
    rewrite !N.Div0.div_div.
    rewrite pretty_N_go_step by (apply N.div_str_pos; lia).
    rewrite !N.Div0.div_div.
    rewrite pretty_N_go_step by (apply N.div_str_pos; lia).
    rewrite !N.Div0.div_div.
    change (10 * 10 * 10 * 10 * 10 * 10)%N with 1000000%N.
    change (10 * 10 * 10 * 10 * 10)%N with 100000%N.
    change (10 * 10 * 10 * 10)%N with 10000%N.
    change (10 * 10 * 10)%N with 1000%N.
    change (10 * 10)%N with 100%N.
    rewrite (N.div_small n 1000000) by lia.
    by rewrite pretty_N_go_0. }
  split_and!.
  - by rewrite Heq.
  - rewrite Heq. simpl. repeat constructor; apply pretty_N_char_digit.
  - by exists n.
Qed.

Lemma room_code_six_digits rnd k : six_digit_code (room_code rnd k).
Proof.
  apply pretty_six_digits. unfold random_below.
  assert (rnd k `mod` 900000 < 900000)%N as Hlt
    by (by apply N.mod_upper_bound).
  revert Hlt. generalize (rnd k `mod` 900000)%N. intros; lia.
Qed.

(** Fewer keys than candidates: some candidate is not a key. *)
Lemma free_candidate (f : nat → string) (c : nat) (X : gset string) :
  Inj (=) (=) f → size X < c → ∃ i, i < c ∧ f i ∉ X.
Proof.
  intros Hinj. revert X. induction c as [|c IH]; intros X Hsize; [lia|].
  destruct (decide (f c ∈ X)) as [Hin|Hnin]; [|exists c; split; [lia|done]].
  destruct (IH (X ∖ {[f c]})) as (i & Hi & Hfree).
  - assert (size ({[f c]} : gset string) ≤ size X) as Hle
      by (apply subseteq_size; set_solver).
    rewrite size_singleton in Hle.
    rewrite size_difference, size_singleton by set_solver. lia.
  - exists i. split; [lia|].
    intros HiX. apply Hfree. apply elem_of_difference. split; [done|].
    intros ->%elem_of_singleton%Hinj. lia.
Qed.

Lemma free_code_exists (rooms : Rooms) :
  (N.of_nat (size rooms) < 900000)%N →
  ∃ n : N, (100000 ≤ n ≤ 999999)%N ∧ rooms !! pretty n = None.
Proof.
  intros Hsize.
  destruct (free_candidate (λ i, pretty (100000 + N.of_nat i)%N)
              (N.to_nat 900000) (dom rooms)) as (i & Hi & Hfree).
  - intros i j Hij. apply (inj pretty) in Hij. lia.
  - rewrite size_dom. lia.
  - exists (100000 + N.of_nat i)%N. split; [lia|].
    by apply not_elem_of_dom.
Qed.

(** Once the tape holds a free code at or after the position of the call,
    the loop returns, at the first such position. *)
Lemma generateUniqueRoomId_returns rnd (rooms : Rooms) j k :
  k ≤ j → rooms !! room_code rnd j = None →
  ∃ n, k ≤ n ≤ j ∧ rooms !! room_code rnd n = None
       ∧ ∀ fuel, n - k < fuel →
           generateUniqueRoomId fuel rnd k rooms = Some (room_code rnd n, S n).
Proof.
  intros Hkj Hfree. remember (j - k) as d eqn:Hd.
  revert k Hkj Hd. induction d as [|d IH]; intros k Hkj Hd.
  - assert (k = j) as -> by lia. exists j. split_and!; [lia..|done|].
    intros [|fuel] ?; [lia|]. simpl.
    rewrite decide_False; [done|]. rewrite Hfree. by intros [? ?].
  - destruct (rooms !! room_code rnd k) as [r|] eqn:Hk.
    + destruct (IH (S k)) as (n & Hn & Hnfree & Hret); [lia..|].
      exists n. split_and!; [lia..|done|].
      intros [|fuel] ?; [lia|]. simpl.
      rewrite decide_True by (by rewrite Hk). apply Hret. lia.
    + exists k. split_and!; [lia..|done|].
      intros [|fuel] ?; [lia|]. simpl.
      rewrite decide_False; [done|]. rewrite Hk. by intros [? ?].
Qed.

(** The tape that counts, 0, 1, 2, ..., keeps drawing every code. *)
Lemma counting_tape_draws_every_code : draws_every_code N.of_nat.
Proof.
  intros r k Hr. exists (N.to_nat (r + N.of_nat k * 900000)). split; [lia|].
  unfold random_below. rewrite N2Nat.id.
  rewrite N.Div0.mod_add. by apply N.mod_small.
Qed.

(** A draw whose code is free is returned at once. *)
Lemma generateUniqueRoomId_free_draw fuel rnd k (rooms : Rooms) :
  rooms !! room_code rnd k = None →
  generateUniqueRoomId (S fuel) rnd k rooms = Some (room_code rnd k, S k).
Proof.
  intros Hfree. simpl. rewrite decide_False; [done|].
  rewrite Hfree. by intros [? ?].
Qed.

(** C8.  With fewer than 900000 rooms in the registry, [generateUniqueRoomId]
    returns a 6-digit numeric string in the range 100000-999999 that is not a
    key of the registry.  Some draw [r] of the random source gives a code
    [100000 + r] that is free, and a call whose first draw is [r] returns that
    code at once.  For every random source that keeps drawing every code, the
    call returns: from some number of iterations on, the loop gives one and
    the same code, 6 digits long and free.  And for every random source,
    whatever the call returns is such a code. *)
Theorem generateUniqueRoomId_fresh (rooms : Rooms) :
  (N.of_nat (size rooms) < 900000)%N →
  (∃ r : N,
     (r < 900000)%N
     ∧ rooms !! pretty (100000 + r)%N = None
     ∧ ∀ rnd k fuel,
         random_below rnd k 900000 = r →
         generateUniqueRoomId (S fuel) rnd k rooms
         = Some (pretty (100000 + r)%N, S k))
  ∧ ∀ rnd k,
      (draws_every_code rnd →
         ∃ code k' fuel0,
           six_digit_code code ∧ rooms !! code = None
           ∧ ∀ fuel, fuel0 ≤ fuel →
               generateUniqueRoomId fuel rnd k rooms = Some (code, k'))
      ∧ (∀ fuel code k',
           generateUniqueRoomId fuel rnd k rooms = Some (code, k') →
           six_digit_code code ∧ rooms !! code = None).
Proof.
  intros Hsize.
  destruct (free_code_exists rooms Hsize) as (n & Hn & Hfree).
  assert (100000 + (n - 100000) = n)%N as Hr by lia.
  assert (n - 100000 < 900000)%N as Hlt by lia.
  split.
  - exists (n - 100000)%N. rewrite Hr. split_and!; [done..|].
    intros rnd k fuel Hdraw.
    assert (room_code rnd k = pretty n) as Hcode.
    { unfold room_code. by rewrite Hdraw, Hr. }
    rewrite <-Hcode. apply generateUniqueRoomId_free_draw. by rewrite Hcode.
  - intros rnd k. split.
    + intros Hfair.
      destruct (Hfair (n - 100000)%N k Hlt) as (j & Hkj & Hdraw).
      assert (rooms !! room_code rnd j = None) as Hj.
      { unfold room_code. by rewrite Hdraw, Hr. }
      destruct (generateUniqueRoomId_returns rnd rooms j k Hkj Hj)
        as (m & Hm & Hmfree & Hret).
      exists (room_code rnd m), (S m), (S (m - k)).
      split_and!; [apply room_code_six_digits|done|].
      intros fuel Hfuel. apply Hret. lia.
    + intros fuel code k' (m & _ & _ & -> & Hmfree & _)%generateUniqueRoomId_Some.
      split; [apply room_code_six_digits|done].
Qed.

(** ** The question-index invariant *)

Lemma question_index_valid_progress room room' :
  currentProgress room' = currentProgress room →
  question_index_valid room → question_index_valid room'.
Proof. unfold question_index_valid. by intros ->. Qed.

Lemma registry_valid_insert rid room (rooms : Rooms) :
  question_index_valid room → registry_valid rooms →
  registry_valid (<[rid := room]> rooms).
Proof. intros. by apply map_Forall_insert_2. Qed.

Lemma format_questions_first rnd k results :
  results ≠ [] → is_Some ((format_questions rnd k 0 results ∅).1 !! 1%Z).
Proof.
  destruct results as [|qd results]; [done|]. intros _.
  destruct (format_questions_lookup rnd k 0 (qd :: results) ∅ 0 qd eq_refl)
    as (answers & Hlook & _).
  change (0 + 1 + Z.of_nat 0)%Z with 1%Z in Hlook. by rewrite Hlook.
Qed.

(** A handler that stores the room back with its [currentProgress] as it
    was keeps the invariant. *)
Ltac same_progress Hroom room rid :=
  simpl; apply registry_valid_insert; [|done];
  by apply (question_index_valid_progress room), (Hroom rid).

(** One event in bounds keeps the invariant. *)
Lemma handle_keeps_valid w e rooms :
  registry_valid rooms → event_in_bounds w e rooms →
  registry_valid (registry (handle w e rooms)).
Proof.
  intros Hvalid Hbounds.
  assert (∀ rid room, rooms !! rid = Some room → question_index_valid room)
    as Hroom.
  { intros rid room Hr.
    exact (map_Forall_lookup_1 (λ _ r, question_index_valid r) rooms rid room
             Hvalid Hr). }
  destruct e as [sid qtl qpr plan m|sid rid|sid rid nm|sid rid qid|sid rid
                 |sid rid|sid rid a|sid rid]; simpl in *.
  - unfold create, createRoom.
    destruct (generateUniqueRoomId _ _ _ _) as [[code k]|]; [|done].
    rewrite (generateRound_next _ _ _ _ _ _ _ _ (round_at plan 0)) by done.
    destruct (provider w _) as [results|]; [|done]. simpl.
    apply registry_valid_insert; [|done].
    unfold question_index_valid. simpl.
    apply format_questions_first. by intros ->.
  - unfold startQuiz. destruct (rooms !! rid) as [room|] eqn:Hr; [|done].
    case_decide; [done|]. same_progress Hroom room rid.
  - unfold playerJoin. destruct (rooms !! rid) as [room|] eqn:Hr; [|done].
    destruct (quizStarted room); [done|].
    destruct (JsObject.get sid (players room)); [done|].
    same_progress Hroom room rid.
  - unfold nextQuestion. destruct (rooms !! rid) as [room|] eqn:Hr; [|done].
    simpl. apply registry_valid_insert; [|done].
    unfold question_index_valid. simpl.
    destruct (roundQuestions (currentProgress room)) as [| |qs] eqn:Hqs; [done..|].
    by apply (Hbounds room).
  - unfold endOfRound. destruct (rooms !! rid) as [room|] eqn:Hr; [|done].
    same_progress Hroom room rid.
  - unfold nextRound. destruct (rooms !! rid) as [room|] eqn:Hr; [|done].
    destruct (nextCategoryId (currentRound (currentProgress room)) (rounds room))
      as [next|] eqn:Hnext.
    + rewrite (generateRound_next _ _ _ _ _ _ _ _ next) by done.
      specialize (Hbounds room next eq_refl Hnext).
      destruct (provider w _) as [results|]; [|done]. simpl.
      apply registry_valid_insert; [|done].
      unfold question_index_valid. simpl.
      apply format_questions_first. by intros ->.
    + unfold generateRound. rewrite Hnext. simpl.
      by apply registry_valid_insert.
  - unfold submitAnswer. destruct (rooms !! rid) as [room|] eqn:Hr; [|done].
    destruct (JsObject.get sid (players room)); [|done].
    destruct (question_slot _ _); try done.
    same_progress Hroom room rid.
  - unfold endOfGame. destruct (rooms !! rid) as [room|] eqn:Hr; [|done].
    same_progress Hroom room rid.
Qed.

(** C9 as stated fails.  From the empty registry, creating a room (two
    questions, keys 1 and 2) and then advancing to question 99 are both
    answered with the room, and leave a room whose [currentQuestion] is not a
    key of its question set. *)
Lemma nextQuestion_breaks_invariant :
  (∃ room qs,
     run Sample.advance_out_of_range ∅ !! "482913" = Some room
     ∧ roundQuestions (currentProgress room) = RQObject qs
     ∧ dom qs = {[1%Z; 2%Z]}
     ∧ currentQuestion (currentProgress room) = 99%Z
     ∧ qs !! 99%Z = None)
  ∧ ¬ registry_valid (run Sample.advance_out_of_range ∅).
Proof.
  assert (∃ room qs,
            run Sample.advance_out_of_range ∅ !! "482913" = Some room
            ∧ roundQuestions (currentProgress room) = RQObject qs
            ∧ dom qs = {[1%Z; 2%Z]}
            ∧ currentQuestion (currentProgress room) = 99%Z
            ∧ qs !! 99%Z = None) as Hrun.
  { eexists _, _. split_and!; vm_compute; reflexivity. }
  split; [exact Hrun|].
  destruct Hrun as (room & qs & Hroom & Hqs & _ & Hcur & Hnone).
  intros Hvalid.
  pose proof (map_Forall_lookup_1 (λ _ r, question_index_valid r) _ _ _
                Hvalid Hroom) as Hbad.
  unfold question_index_valid in Hbad. rewrite Hqs, Hcur, Hnone in Hbad.
  by destruct Hbad.
Qed.

(** C9, amended.  The invariant holds in the empty registry and is kept by
    every event in bounds, hence along every sequence of such events from
    the empty registry.  [nextQuestion] stores the question id it is given
    without looking at the question set: on a room with a question set it
    keeps the invariant exactly when that id is one of the set's keys. *)
Theorem question_index_invariant :
  registry_valid ∅
  ∧ (∀ w e rooms,
       registry_valid rooms → event_in_bounds w e rooms →
       registry_valid (registry (handle w e rooms)))
  ∧ (∀ es, all_in_bounds es ∅ → registry_valid (run es ∅))
  ∧ (∀ rid qid rooms room qs,
       rooms !! rid = Some room →
       roundQuestions (currentProgress room) = RQObject qs →
       ∃ room',
         nextQuestion rid qid rooms
         = mkOutcome (Replied (ReplyRoom room')) (<[rid := room']> rooms)
                     [Emit (roomId room) "quiz:nextQuestion" (PNextQuestion qid)]
         ∧ currentQuestion (currentProgress room') = qid
         ∧ roundQuestions (currentProgress room') = RQObject qs
         ∧ (question_index_valid room' ↔ is_Some (qs !! qid))).
Proof.
  split_and!.
  - apply map_Forall_empty.
  - apply handle_keeps_valid.
  - intros es. generalize (map_Forall_empty (M := gmap string)
                             (λ _ room, question_index_valid room)).
    fold (registry_valid ∅). generalize (∅ : Rooms).
    induction es as [|[w e] es IH]; intros rooms Hvalid; simpl; [done|].
    intros [Hb Hrest]. apply IH; [|done]. by apply handle_keeps_valid.
  - intros rid qid rooms room qs Hroom Hqs. unfold nextQuestion. rewrite Hroom.
    eexists. split_and!; [reflexivity|done|done|].
    unfold question_index_valid. simpl. by rewrite Hqs.
Qed.

(** ** The theorems at the sample rooms *)

Lemma submitAnswer_scores_witness :
  Sample.registry_of Sample.started1 !! "482913" = Some Sample.started1
  ∧ JsObject.get "s1" (players Sample.started1) = Some (Sample.player "Ann" 0 0)
  ∧ active_question Sample.started1 = Some Sample.q1
  ∧ ∃ room' player',
      submitAnswer "s1" "482913" 2 (Sample.registry_of Sample.started1)
      = mkOutcome (Replied (ReplyMessage "Answer submitted successfully."))
          (<["482913" := room']> (Sample.registry_of Sample.started1))
          [Emit (gameMaster Sample.started1) "playerAnswered"
                (PPlayerAnswered "s1" (name (Sample.player "Ann" 0 0))
                   (array_get (allAnswers Sample.q1) (2 - 1))
                   (bool_decide (array_get (allAnswers Sample.q1) (2 - 1)
                                 = Some (correct_answer Sample.q1))))]
      ∧ JsObject.get "s1" (players room') = Some player'
      ∧ (selects_correct Sample.q1 2 →
           currentRoundScore player' = currentRoundScore (Sample.player "Ann" 0 0) + 1
           ∧ totalScore player' = totalScore (Sample.player "Ann" 0 0) + 1
           ∧ currentRoundAnswers player'
             !! currentQuestion (currentProgress Sample.started1) = Some true)
      ∧ (¬ selects_correct Sample.q1 2 →
           currentRoundScore player' = currentRoundScore (Sample.player "Ann" 0 0)
           ∧ totalScore player' = totalScore (Sample.player "Ann" 0 0)
           ∧ currentRoundAnswers player'
             !! currentQuestion (currentProgress Sample.started1) = Some false).
Proof.
  assert (Sample.registry_of Sample.started1 !! "482913" = Some Sample.started1)
    as H1 by (vm_compute; reflexivity).
  assert (JsObject.get "s1" (players Sample.started1)
          = Some (Sample.player "Ann" 0 0)) as H2 by (vm_compute; reflexivity).
  assert (active_question Sample.started1 = Some Sample.q1)
    as H3 by (vm_compute; reflexivity).
  exact (conj H1 (conj H2 (conj H3
           (submitAnswer_scores "s1" "482913" 2 _ _ _ _ H1 H2 H3)))).
Defined.

Lemma submitAnswer_out_of_range_witness :
  Sample.registry_of Sample.started1 !! "482913" = Some Sample.started1
  ∧ JsObject.get "s1" (players Sample.started1) = Some (Sample.player "Ann" 0 0)
  ∧ active_question Sample.started1 = Some Sample.q1
  ∧ (7 < 1 ∨ Z.of_nat (length (allAnswers Sample.q1)) < 7)%Z
  ∧ ∃ room' player',
      completion (submitAnswer "s1" "482913" 7 (Sample.registry_of Sample.started1))
      = Replied (ReplyMessage "Answer submitted successfully.")
      ∧ registry (submitAnswer "s1" "482913" 7 (Sample.registry_of Sample.started1))
        = <["482913" := room']> (Sample.registry_of Sample.started1)
      ∧ JsObject.get "s1" (players room') = Some player'
      ∧ currentRoundAnswers player'
        !! currentQuestion (currentProgress Sample.started1) = Some false
      ∧ currentRoundScore player' = currentRoundScore (Sample.player "Ann" 0 0)
      ∧ totalScore player' = totalScore (Sample.player "Ann" 0 0).
Proof.
  assert (Sample.registry_of Sample.started1 !! "482913" = Some Sample.started1)
    as H1 by (vm_compute; reflexivity).
  assert (JsObject.get "s1" (players Sample.started1)
          = Some (Sample.player "Ann" 0 0)) as H2 by (vm_compute; reflexivity).
  assert (active_question Sample.started1 = Some Sample.q1)
    as H3 by (vm_compute; reflexivity).
  assert (7 < 1 ∨ Z.of_nat (length (allAnswers Sample.q1)) < 7)%Z
    as H4 by (right; simpl; lia).
  exact (conj H1 (conj H2 (conj H3 (conj H4
           (submitAnswer_out_of_range "s1" "482913" 7 _ _ _ _ H1 H2 H3 H4))))).
Defined.

Lemma calculateRankings_dense_ranks_witness :
  JsObject.wf (players Sample.trio)
  ∧ ranks_in_order endOfRoundRank
      (rankings_of currentRoundScore (players Sample.trio))
      (players (calculateRankings Sample.trio))
    = Some <$> spec_ranks (rankings_of currentRoundScore (players Sample.trio)).*2.
Proof.
  assert (JsObject.wf (players Sample.trio)) as Hwf.
  { unfold JsObject.wf. apply (bool_decide_unpack _). by vm_compute. }
  exact (conj Hwf
           (proj2 (proj2 (proj1 (calculateRankings_dense_ranks Sample.trio Hwf))))).
Defined.

Lemma generateRound_next_category_witness :
  [10; 10; 12]%Z !! 0 = Some 10%Z
  ∧ (∀ j, j < 0 → [10; 10; 12]%Z !! j ≠ Some 10%Z)
  ∧ [10; 10; 12]%Z !! (0 + 1) = Some 10%Z
  ∧ nextCategoryId (CatId 10) [10; 10; 12]%Z = Some (CatId 10).
Proof.
  assert ([10; 10; 12]%Z !! 0 = Some 10%Z) as H1 by reflexivity.
  assert (∀ j, j < 0 → [10; 10; 12]%Z !! j ≠ Some 10%Z) as H2 by (intros; lia).
  assert ([10; 10; 12]%Z !! (0 + 1) = Some 10%Z) as H3 by reflexivity.
  exact (conj H1 (conj H2 (conj H3
           (proj1 (proj1 (proj2 (generateRound_next_category [10; 10; 12]%Z))
                     10%Z 0 H1 H2) 10%Z H3)))).
Defined.

Lemma nextRound_resets_witness :
  ∃ room',
    completion (nextRound Sample.world "482913"
                  (Sample.registry_of Sample.two_rounds))
    = Replied (ReplyRoom room')
    ∧ ∃ room value room1 k',
        Sample.registry_of Sample.two_rounds !! "482913" = Some room
        ∧ generateRound (provider Sample.world) (random Sample.world)
            (position Sample.world) (currentRound (currentProgress room))
            (rounds room) (mode room) (questionPerRound room) room
          = RoundReturned value room1 k'
        ∧ registry (nextRound Sample.world "482913"
                      (Sample.registry_of Sample.two_rounds))
          = <["482913" := room']> (Sample.registry_of Sample.two_rounds)
        ∧ roundQuestions (currentProgress room') = value
        ∧ currentQuestion (currentProgress room') = 1%Z
        ∧ JsObject.keys (players room') = JsObject.keys (players room)
        ∧ ∀ id p, JsObject.get id (players room) = Some p →
            ∃ p', JsObject.get id (players room') = Some p'
              ∧ currentRoundScore p' = 0
              ∧ currentRoundAnswers p' = ∅
              ∧ endOfRoundRank p' = None
              ∧ totalScore p' = totalScore p
              ∧ overallRank p' = overallRank p
              ∧ name p' = name p.
Proof.
  eexists. split; [vm_compute; reflexivity|].
  apply nextRound_resets. vm_compute. reflexivity.
Defined.

Lemma playerJoin_guards_witness :
  Sample.registry_of Sample.started1 !! "482913" = Some Sample.started1
  ∧ quizStarted Sample.started1 = true
  ∧ playerJoin "s2" "482913" "Bob" (Sample.registry_of Sample.started1)
    = mkOutcome (Replied (ReplyError QuizAlreadyStarted))
                (Sample.registry_of Sample.started1) [].
Proof.
  assert (Sample.registry_of Sample.started1 !! "482913" = Some Sample.started1)
    as H1 by (vm_compute; reflexivity).
  assert (quizStarted Sample.started1 = true) as H2 by reflexivity.
  exact (conj H1 (conj H2
           (proj1 (playerJoin_guards "s2" "482913" "Bob" _ _ H1) H2))).
Defined.

Lemma create_atomic_witness :
  generateUniqueRoomId (fuel Sample.failing_world) (random Sample.failing_world)
    (position Sample.failing_world) ∅ = Some ("482913", 1)
  ∧ provider Sample.failing_world
      (OpenTrivia.mkRequest (default 5%Z (Some 2%Z)) (round_at [9%Z] 0)
                            (default "easy" (difficultyMap 1))) = None
  ∧ create Sample.failing_world "gm" None (Some 2%Z) [9%Z] 1 ∅
    = mkOutcome (Replied (ReplyError QuestionGenerationFailed)) ∅ [].
Proof.
  assert (generateUniqueRoomId (fuel Sample.failing_world)
            (random Sample.failing_world) (position Sample.failing_world) ∅
          = Some ("482913", 1)) as H1 by (vm_compute; reflexivity).
  assert (provider Sample.failing_world
            (OpenTrivia.mkRequest (default 5%Z (Some 2%Z)) (round_at [9%Z] 0)
                                  (default "easy" (difficultyMap 1))) = None)
    as H2 by reflexivity.
  exact (conj H1 (conj H2
           (proj1 (proj2 (proj2 (create_atomic Sample.failing_world "gm" None
                                   (Some 2%Z) [9%Z] 1 ∅)) "482913" 1 H1) H2))).
Defined.

Lemma startQuiz_needs_players_witness :
  Sample.registry_of Sample.lobby !! "482913" = Some Sample.lobby
  ∧ players Sample.lobby = []
  ∧ startQuiz "482913" (Sample.registry_of Sample.lobby)
    = mkOutcome (Replied (ReplyError NoPlayers)) (Sample.registry_of Sample.lobby) [].
Proof.
  assert (Sample.registry_of Sample.lobby !! "482913" = Some Sample.lobby)
    as H1 by (vm_compute; reflexivity).
  assert (players Sample.lobby = []) as H2 by reflexivity.
  exact (conj H1 (conj H2
           (proj1 (startQuiz_needs_players "482913" _ _ H1) H2))).
Defined.

Lemma generateUniqueRoomId_fresh_witness :
  (N.of_nat (size (Sample.registry_of Sample.lobby1)) < 900000)%N
  ∧ draws_every_code N.of_nat
  ∧ ∃ code k' fuel0,
      six_digit_code code
      ∧ Sample.registry_of Sample.lobby1 !! code = None
      ∧ ∀ fuel, fuel0 ≤ fuel →
          generateUniqueRoomId fuel N.of_nat 0 (Sample.registry_of Sample.lobby1)
          = Some (code, k').
Proof.
  assert (N.of_nat (size (Sample.registry_of Sample.lobby1)) < 900000)%N
    as H1 by (vm_compute; reflexivity).
  exact (conj H1 (conj counting_tape_draws_every_code
           (proj1 (proj2 (generateUniqueRoomId_fresh _ H1) N.of_nat 0)
              counting_tape_draws_every_code))).
Defined.

Lemma question_index_invariant_witness :
  registry_valid (Sample.registry_of Sample.lobby1)
  ∧ event_in_bounds Sample.world (QuizNextQuestion "gm" "482913" 2)
      (Sample.registry_of Sample.lobby1)
  ∧ registry_valid
      (registry (handle Sample.world (QuizNextQuestion "gm" "482913" 2)
                   (Sample.registry_of Sample.lobby1))).
Proof.
  assert (registry_valid (Sample.registry_of Sample.lobby1)) as H1.
  { apply map_Forall_singleton. unfold question_index_valid.
    vm_compute. by eexists. }
  assert (event_in_bounds Sample.world (QuizNextQuestion "gm" "482913" 2)
            (Sample.registry_of Sample.lobby1)) as H2.
  { intros room qs. vm_compute. intros [= <-] [= <-]. by eexists. }
  exact (conj H1 (conj H2
           (proj1 (proj2 question_index_invariant) _ _ _ H1 H2))).
Defined.

(** * Further properties of the room handler *)

(** ** [shuffleArray] and the questions of a round *)

(** X1.  [shuffleArray] rearranges: the shuffled array has the elements of
    the array it was given, each as often, hence the same length and the same
    members; it reads one random draw per element but the first, and an array
    of at most one element is returned as it is without a draw. *)
Theorem shuffleArray_rearranges {A} rnd k (l : list A) :
  (shuffleArray rnd k l).1 ≡ₚ l
  ∧ length (shuffleArray rnd k l).1 = length l
  ∧ (∀ x, x ∈ (shuffleArray rnd k l).1 ↔ x ∈ l)
  ∧ (shuffleArray rnd k l).2 = k + (length l - 1)
  ∧ (length l ≤ 1 → shuffleArray rnd k l = (l, k)).
Proof.
  destruct (shuffleArray_Permutation rnd k l) as [Hp Hk].
  split_and!; [done|by rewrite Hp| |done|].
  - intros x. by rewrite Hp.
  - intros Hl. unfold shuffleArray.
    by replace (length l - 1) with 0 by lia.
Qed.

Lemma shuffleArray_rearranges_witness :
  length ["Paris"] ≤ 1
  ∧ shuffleArray (λ _, 382913%N) 5 ["Paris"] = (["Paris"], 5).
Proof.
  assert (length ["Paris"] ≤ 1) as H1 by (simpl; lia).
  exact (conj H1
           (proj2 (proj2 (proj2 (proj2
              (shuffleArray_rearranges (λ _, 382913%N) 5 ["Paris"])))) H1)).
Defined.

Lemma selects_correct_exists q :
  correct_answer q ∈ allAnswers q →
  ∃ a, (1 ≤ a ≤ Z.of_nat (length (allAnswers q)))%Z ∧ selects_correct q a.
Proof.
  intros [i Hi]%list_elem_of_lookup.
  exists (Z.of_nat i + 1)%Z. split.
  - apply lookup_lt_Some in Hi. lia.
  - unfold selects_correct, array_get. rewrite decide_True by lia.
    by replace (Z.to_nat (Z.of_nat i + 1 - 1)) with i by lia.
Qed.

(** X2.  When the plan has a next category and the provider answers with
    [N] results, [generateRound] returns a questions object and stores the
    category as the room's current round.  The object has exactly the keys
    [1..N]; under [i + 1] sits the [i]-th result, with its question text and
    correct answer, and with answers that are the correct and the incorrect
    answers of the provider in some order, so that some answer choice between
    1 and the number of answers selects the correct one. *)
Theorem generateRound_questions provider rnd k cur plan m qpr room next results :
  nextCategoryId cur plan = Some next →
  provider (OpenTrivia.mkRequest qpr next (default "easy" (difficultyMap m)))
  = Some results →
  ∃ qs k',
    generateRound provider rnd k cur plan m qpr room
    = RoundReturned (RQObject qs) (set_currentRound next room) k'
    ∧ (∀ j, is_Some (qs !! j) ↔ (1 ≤ j ≤ Z.of_nat (length results))%Z)
    ∧ ∀ i qd, results !! i = Some qd →
        ∃ q, qs !! (Z.of_nat i + 1)%Z = Some q
          ∧ question q = OpenTrivia.question qd
          ∧ correct_answer q = OpenTrivia.correct_answer qd
          ∧ allAnswers q
            ≡ₚ OpenTrivia.correct_answer qd :: OpenTrivia.incorrect_answers qd
          ∧ ∃ a, (1 ≤ a ≤ Z.of_nat (length (allAnswers q)))%Z
                 ∧ selects_correct q a.
Proof.
  intros Hnext Hprov.
  rewrite (generateRound_next _ _ _ _ _ _ _ _ _ Hnext), Hprov.
  eexists _, _. split; [reflexivity|]. split.
  - intros j. split.
    + intros Hj.
      destruct (decide (1 ≤ j ≤ Z.of_nat (length results))%Z) as [|Hout]; [done|].
      rewrite format_questions_frame in Hj by lia.
      rewrite lookup_empty in Hj. by destruct Hj.
    + intros Hj.
      destruct (lookup_lt_is_Some_2 results (Z.to_nat (j - 1))) as [qd Hqd]; [lia|].
      destruct (format_questions_lookup rnd k 0 results ∅ _ qd Hqd)
        as (answers & Hlook & _).
      replace (0 + 1 + Z.of_nat (Z.to_nat (j - 1)))%Z with j in Hlook by lia.
      by rewrite Hlook.
  - intros i qd Hqd.
    destruct (format_questions_lookup rnd k 0 results ∅ i qd Hqd)
      as (answers & Hlook & Hperm).
    replace (0 + 1 + Z.of_nat i)%Z with (Z.of_nat i + 1)%Z in Hlook by lia.
    eexists. split; [exact Hlook|]. simpl. split_and!; [done..|].
    apply (selects_correct_exists (mkQuestion _ _ answers)). simpl.
    rewrite Hperm. left.
Qed.

Lemma generateRound_questions_witness :
  nextCategoryId (CatId 9) [9; 12]%Z = Some (CatId 12)
  ∧ provider Sample.world
      (OpenTrivia.mkRequest 2 (CatId 12) (default "easy" (difficultyMap 1)))
    = Some Sample.results
  ∧ ∃ qs k',
      generateRound (provider Sample.world) (random Sample.world) 0 (CatId 9)
                    [9; 12]%Z 1 2 Sample.two_rounds
      = RoundReturned (RQObject qs) (set_currentRound (CatId 12) Sample.two_rounds) k'
      ∧ (∀ j, is_Some (qs !! j) ↔ (1 ≤ j ≤ Z.of_nat (length Sample.results))%Z)
      ∧ ∀ i qd, Sample.results !! i = Some qd →
          ∃ q, qs !! (Z.of_nat i + 1)%Z = Some q
            ∧ question q = OpenTrivia.question qd
            ∧ correct_answer q = OpenTrivia.correct_answer qd
            ∧ allAnswers q
              ≡ₚ OpenTrivia.correct_answer qd :: OpenTrivia.incorrect_answers qd
            ∧ ∃ a, (1 ≤ a ≤ Z.of_nat (length (allAnswers q)))%Z
                   ∧ selects_correct q a.
Proof.
  assert (nextCategoryId (CatId 9) [9; 12]%Z = Some (CatId 12))
    as H1 by (vm_compute; reflexivity).
  assert (provider Sample.world
            (OpenTrivia.mkRequest 2 (CatId 12) (default "easy" (difficultyMap 1)))
          = Some Sample.results) as H2 by reflexivity.
  exact (conj H1 (conj H2
           (generateRound_questions _ _ 0 _ _ 1 2 Sample.two_rounds _ _ H1 H2))).
Defined.

(** ** Rooms that are not there, answers that cannot be taken *)

(** X3.  Every handler but [create] looks its room up first: for a room id
    that is not in the registry it replies with its room-not-found error,
    leaves the registry as it is and emits nothing. *)
Theorem handle_unknown_room w e rooms rid :
  event_roomId e = Some rid → rooms !! rid = None →
  handle w e rooms
  = mkOutcome (Replied (ReplyError (room_not_found_error e))) rooms [].
Proof.
  intros He Hnone.
  destruct e; simplify_eq/=;
    unfold startQuiz, playerJoin, nextQuestion, endOfRound, nextRound,
           submitAnswer, endOfGame;
    by rewrite Hnone.
Qed.

Lemma handle_unknown_room_witness :
  event_roomId (SubmitAnswer "s1" "111111" 2) = Some "111111"
  ∧ Sample.registry_of Sample.started1 !! "111111" = None
  ∧ handle Sample.world (SubmitAnswer "s1" "111111" 2)
           (Sample.registry_of Sample.started1)
    = mkOutcome (Replied (ReplyError RoomNotFound))
                (Sample.registry_of Sample.started1) [].
Proof.
  assert (event_roomId (SubmitAnswer "s1" "111111" 2) = Some "111111")
    as H1 by reflexivity.
  assert (Sample.registry_of Sample.started1 !! "111111" = None)
    as H2 by (vm_compute; reflexivity).
  exact (conj H1 (conj H2
           (handle_unknown_room Sample.world _ _ _ H1 H2))).
Defined.

(** X4.  [submitAnswer] replies with success exactly when the room is in the
    registry, the socket has a player in it and the room is on a question of
    a question set.  In every other case it leaves the registry as it is and
    emits nothing. *)
Theorem submitAnswer_success_iff socket_id rid answer rooms :
  (completion (submitAnswer socket_id rid answer rooms)
   = Replied (ReplyMessage "Answer submitted successfully.")
   ↔ ∃ room p q, rooms !! rid = Some room
       ∧ JsObject.get socket_id (players room) = Some p
       ∧ active_question room = Some q)
  ∧ (completion (submitAnswer socket_id rid answer rooms)
     ≠ Replied (ReplyMessage "Answer submitted successfully.") →
     registry (submitAnswer socket_id rid answer rooms) = rooms
     ∧ effects (submitAnswer socket_id rid answer rooms) = []).
Proof.
  split.
  - split.
    + unfold submitAnswer, question_slot.
      destruct (rooms !! rid) as [room|]; [|done].
      destruct (JsObject.get socket_id (players room)) as [p|] eqn:Hp; [|done].
      destruct (roundQuestions (currentProgress room)) as [| |qs] eqn:Hqs;
        [done| |].
      * by case_decide.
      * destruct (qs !! currentQuestion (currentProgress room)) as [q|] eqn:Hq;
          [|done].
        intros _. exists room, p, q. split_and!; [done..|].
        unfold active_question. by rewrite Hqs.
    + intros (room & p & q & Hroom & Hp & Hq).
      by rewrite (submitAnswer_active _ _ _ _ _ _ _ Hroom Hp Hq).
  - unfold submitAnswer, question_slot.
    destruct (rooms !! rid) as [room|]; [|done].
    destruct (JsObject.get socket_id (players room)) as [p|]; [|done].
    destruct (roundQuestions (currentProgress room)) as [| |qs]; [done| |].
    + by case_decide.
    + by destruct (qs !! currentQuestion (currentProgress room)).
Qed.

Lemma submitAnswer_success_iff_witness :
  completion (submitAnswer "s9" "482913" 2 (Sample.registry_of Sample.started1))
  ≠ Replied (ReplyMessage "Answer submitted successfully.")
  ∧ registry (submitAnswer "s9" "482913" 2 (Sample.registry_of Sample.started1))
    = Sample.registry_of Sample.started1
  ∧ effects (submitAnswer "s9" "482913" 2 (Sample.registry_of Sample.started1))
    = [].
Proof.
  assert (completion (submitAnswer "s9" "482913" 2
                        (Sample.registry_of Sample.started1))
          ≠ Replied (ReplyMessage "Answer submitted successfully."))
    as H1 by (vm_compute; discriminate).
  exact (conj H1 (proj2 (submitAnswer_success_iff "s9" "482913" 2 _) H1)).
Defined.

(** X5.  When the plan has no next category, [nextRound] still replies with
    the room: it stores the string "end of round" as [roundQuestions], puts
    [currentQuestion] back to 1 and leaves [currentRound] where it was.  In
    the room it leaves, [roundQuestions[1]] is a character of that string,
    not a question: [submitAnswer] from any player of the room throws instead
    of replying, and changes nothing. *)
Theorem nextRound_exhausted_then_submit w socket_id rid answer rooms room p :
  rooms !! rid = Some room →
  nextCategoryId (currentRound (currentProgress room)) (rounds room) = None →
  JsObject.get socket_id (players room) = Some p →
  ∃ room',
    nextRound w rid rooms
    = mkOutcome (Replied (ReplyRoom room')) (<[rid := room']> rooms)
                [Emit (roomId room) "quiz:roundStart" (PMessage "New round started!")]
    ∧ roundQuestions (currentProgress room') = RQEndOfRound
    ∧ currentQuestion (currentProgress room') = 1%Z
    ∧ currentRound (currentProgress room') = currentRound (currentProgress room)
    ∧ submitAnswer socket_id rid answer (<[rid := room']> rooms)
      = mkOutcome Threw (<[rid := room']> rooms) [].
Proof.
  intros Hroom Hnext Hp. unfold nextRound, generateRound.
  rewrite Hroom, Hnext. eexists. split; [reflexivity|]. simpl.
  split_and!; [done..|].
  unfold submitAnswer. rewrite lookup_insert_eq. simpl.
  by rewrite reset_players_get, Hp.
Qed.

Lemma nextRound_exhausted_then_submit_witness :
  Sample.registry_of Sample.trio !! "482913" = Some Sample.trio
  ∧ nextCategoryId (currentRound (currentProgress Sample.trio))
                   (rounds Sample.trio) = None
  ∧ JsObject.get "s2" (players Sample.trio) = Some (Sample.player "Bob" 10 10)
  ∧ ∃ room',
      nextRound Sample.world "482913" (Sample.registry_of Sample.trio)
      = mkOutcome (Replied (ReplyRoom room'))
          (<["482913" := room']> (Sample.registry_of Sample.trio))
          [Emit (roomId Sample.trio) "quiz:roundStart"
                (PMessage "New round started!")]
      ∧ roundQuestions (currentProgress room') = RQEndOfRound
      ∧ currentQuestion (currentProgress room') = 1%Z
      ∧ currentRound (currentProgress room')
        = currentRound (currentProgress Sample.trio)
      ∧ submitAnswer "s2" "482913" 2
          (<["482913" := room']> (Sample.registry_of Sample.trio))
        = mkOutcome Threw
            (<["482913" := room']> (Sample.registry_of Sample.trio)) [].
Proof.
  assert (Sample.registry_of Sample.trio !! "482913" = Some Sample.trio)
    as H1 by (vm_compute; reflexivity).
  assert (nextCategoryId (currentRound (currentProgress Sample.trio))
                         (rounds Sample.trio) = None)
    as H2 by (vm_compute; reflexivity).
  assert (JsObject.get "s2" (players Sample.trio)
          = Some (Sample.player "Bob" 10 10)) as H3 by (vm_compute; reflexivity).
  exact (conj H1 (conj H2 (conj H3
           (nextRound_exhausted_then_submit Sample.world "s2" "482913" 2
              _ _ _ H1 H2 H3)))).
Defined.

(** ** What [submitAnswer] leaves alone, and what it adds up to *)

(** X6.  A [submitAnswer] that is taken touches the record of the answering
    player only: the other rooms of the registry, the other players of the
    room, the order of the players, the room's progress, its settings and
    [quizStarted] are what they were; of the player's record, the name, both
    ranks and the answers recorded for other questions are what they were. *)
Theorem submitAnswer_frame socket_id rid answer rooms room p q :
  rooms !! rid = Some room →
  JsObject.get socket_id (players room) = Some p →
  active_question room = Some q →
  ∃ room' p',
    registry (submitAnswer socket_id rid answer rooms) = <[rid := room']> rooms
    ∧ JsObject.get socket_id (players room') = Some p'
    ∧ (∀ rid', rid' ≠ rid →
         registry (submitAnswer socket_id rid answer rooms) !! rid' = rooms !! rid')
    ∧ (∀ id, id ≠ socket_id →
         JsObject.get id (players room') = JsObject.get id (players room))
    ∧ JsObject.keys (players room') = JsObject.keys (players room)
    ∧ currentProgress room' = currentProgress room
    ∧ keeps_config room room'
    ∧ quizStarted room' = quizStarted room
    ∧ name p' = name p
    ∧ endOfRoundRank p' = endOfRoundRank p
    ∧ overallRank p' = overallRank p
    ∧ ∀ j, j ≠ currentQuestion (currentProgress room) →
        currentRoundAnswers p' !! j = currentRoundAnswers p !! j.
Proof.
  intros Hroom Hp Hq.
  rewrite (submitAnswer_active _ _ _ _ _ _ _ Hroom Hp Hq). simpl.
  eexists _, _. split; [reflexivity|]. simpl.
  rewrite get_alter_eq, Hp. split; [reflexivity|].
  split_and!.
  - intros rid' Hne. by rewrite lookup_insert_ne.
  - intros id Hne. by rewrite get_alter_ne.
  - apply keys_alter.
  - done.
  - by repeat split.
  - done.
  - by destruct (bool_decide _).
  - by destruct (bool_decide _).
  - by destruct (bool_decide _).
  - intros j Hj. destruct (bool_decide _); simpl; by rewrite lookup_insert_ne.
Qed.

Lemma submitAnswer_frame_witness :
  Sample.registry_of Sample.trio !! "482913" = Some Sample.trio
  ∧ JsObject.get "s2" (players Sample.trio) = Some (Sample.player "Bob" 10 10)
  ∧ active_question Sample.trio = Some Sample.q1
  ∧ ∃ room' p',
      registry (submitAnswer "s2" "482913" 2 (Sample.registry_of Sample.trio))
      = <["482913" := room']> (Sample.registry_of Sample.trio)
      ∧ JsObject.get "s2" (players room') = Some p'
      ∧ (∀ id, id ≠ "s2" →
           JsObject.get id (players room') = JsObject.get id (players Sample.trio)).
Proof.
  assert (Sample.registry_of Sample.trio !! "482913" = Some Sample.trio)
    as H1 by (vm_compute; reflexivity).
  assert (JsObject.get "s2" (players Sample.trio)
          = Some (Sample.player "Bob" 10 10)) as H2 by (vm_compute; reflexivity).
  assert (active_question Sample.trio = Some Sample.q1)
    as H3 by (vm_compute; reflexivity).
  destruct (submitAnswer_frame "s2" "482913" 2 _ _ _ _ H1 H2 H3)
    as (room' & p' & Hreg & Hget & _ & Hothers & _).
  exact (conj H1 (conj H2 (conj H3
           (ex_intro _ room' (ex_intro _ p' (conj Hreg (conj Hget Hothers))))))).
Defined.

(** The state after [n] submissions of one answer choice. *)
Lemma submit_times_state n socket_id rid answer rooms room p q :
  rooms !! rid = Some room →
  JsObject.get socket_id (players room) = Some p →
  active_question room = Some q →
  ∃ room_n p_n,
    submit_times n socket_id rid answer rooms !! rid = Some room_n
    ∧ JsObject.get socket_id (players room_n) = Some p_n
    ∧ active_question room_n = Some q
    ∧ currentRoundScore p_n
      = currentRoundScore p
        + (if bool_decide (array_get (allAnswers q) (answer - 1)
                           = Some (correct_answer q)) then n else 0)
    ∧ totalScore p_n
      = totalScore p
        + (if bool_decide (array_get (allAnswers q) (answer - 1)
                           = Some (correct_answer q)) then n else 0).
Proof.
  intros Hroom Hp Hq. induction n as [|n IH].
  - exists room, p. split_and!; [done..| |]; destruct (bool_decide _); lia.
  - destruct IH as (room_n & p_n & Hroom_n & Hp_n & Hq_n & Hround & Htotal).
    change (submit_times (S n) socket_id rid answer rooms)
      with (registry (submitAnswer socket_id rid answer
                        (submit_times n socket_id rid answer rooms))).
    rewrite (submitAnswer_active _ _ _ _ _ _ _ Hroom_n Hp_n Hq_n). simpl.
    rewrite lookup_insert_eq. eexists _, _. split; [reflexivity|]. simpl.
    rewrite get_alter_eq, Hp_n. split; [reflexivity|].
    split; [done|].
    destruct (bool_decide _); simpl; lia.
Qed.

(** X7.  [submitAnswer] has no guard against a second submission: after [n]
    submissions in a row of a choice that selects the correct answer, by the
    same socket on the same question, both scores of the player are [n]
    higher; after [n] submissions of any other choice they are what they
    were. *)
Theorem submitAnswer_repeated n socket_id rid answer rooms room p q :
  rooms !! rid = Some room →
  JsObject.get socket_id (players room) = Some p →
  active_question room = Some q →
  ∃ room_n p_n,
    submit_times n socket_id rid answer rooms !! rid = Some room_n
    ∧ JsObject.get socket_id (players room_n) = Some p_n
    ∧ (selects_correct q answer →
         currentRoundScore p_n = currentRoundScore p + n
         ∧ totalScore p_n = totalScore p + n)
    ∧ (¬ selects_correct q answer →
         currentRoundScore p_n = currentRoundScore p
         ∧ totalScore p_n = totalScore p).
Proof.
  intros Hroom Hp Hq.
  destruct (submit_times_state n socket_id rid answer _ _ _ _ Hroom Hp Hq)
    as (room_n & p_n & Hroom_n & Hp_n & _ & Hround & Htotal).
  exists room_n, p_n. split_and!; [done..| |]; intros Hsel;
    unfold selects_correct in Hsel.
  - rewrite bool_decide_eq_true_2 in Hround, Htotal by done. done.
  - rewrite bool_decide_eq_false_2 in Hround, Htotal by done. lia.
Qed.

Lemma submitAnswer_repeated_witness :
  Sample.registry_of Sample.started1 !! "482913" = Some Sample.started1
  ∧ JsObject.get "s1" (players Sample.started1) = Some (Sample.player "Ann" 0 0)
  ∧ active_question Sample.started1 = Some Sample.q1
  ∧ selects_correct Sample.q1 2
  ∧ ∃ room_n p_n,
      submit_times 3 "s1" "482913" 2 (Sample.registry_of Sample.started1)
      !! "482913" = Some room_n
      ∧ JsObject.get "s1" (players room_n) = Some p_n
      ∧ currentRoundScore p_n = 3 ∧ totalScore p_n = 3.
Proof.
  assert (Sample.registry_of Sample.started1 !! "482913" = Some Sample.started1)
    as H1 by (vm_compute; reflexivity).
  assert (JsObject.get "s1" (players Sample.started1)
          = Some (Sample.player "Ann" 0 0)) as H2 by (vm_compute; reflexivity).
  assert (active_question Sample.started1 = Some Sample.q1)
    as H3 by (vm_compute; reflexivity).
  assert (selects_correct Sample.q1 2) as H4 by (vm_compute; reflexivity).
  destruct (submitAnswer_repeated 3 "s1" "482913" 2 _ _ _ _ H1 H2 H3)
    as (room_n & p_n & Hroom_n & Hp_n & Hyes & _).
  exact (conj H1 (conj H2 (conj H3 (conj H4
           (ex_intro _ room_n (ex_intro _ p_n
              (conj Hroom_n (conj Hp_n (Hyes H4))))))))).
Defined.

(** ** Ranks as counts *)

Lemma sorted_desc_lookup (rr : list (string * nat)) i j a b :
  StronglySorted score_desc rr → i ≤ j →
  rr !! i = Some a → rr !! j = Some b → b.2 ≤ a.2.
Proof.
  intros Hsorted. revert i j.
  induction Hsorted as [|x rr Hrr IH Hx]; intros i j Hij Hi Hj; [done|].
  destruct i as [|i], j as [|j]; simplify_eq/=; [done| |lia|].
  - rewrite Forall_lookup in Hx. apply (Hx j b Hj).
  - apply (IH i j); [lia|done..].
Qed.

(** A predicate that holds on the first [m] elements and on no other is
    satisfied by [m] elements. *)
Lemma count_prefix {A} (P : A → Prop) `{!∀ x, Decision (P x)} (l : list A) m :
  m ≤ length l →
  (∀ j x, l !! j = Some x → (P x ↔ j < m)) →
  length (filter P l) = m.
Proof.
  revert m. induction l as [|x l IH]; intros m Hm HP; [simpl in *; lia|].
  destruct m as [|m].
  - rewrite filter_cons_False by (intros Hx; apply (HP 0 x) in Hx; [lia|done]).
    apply IH; [lia|]. intros j y Hj. rewrite (HP (S j) y Hj). lia.
  - rewrite filter_cons_True by (apply (HP 0 x); [done|lia]).
    simpl. f_equal. apply IH; [simpl in Hm; lia|].
    intros j y Hj. rewrite (HP (S j) y Hj). lia.
Qed.

Lemma dense_rank_count (rr : list (string * nat)) i id s :
  StronglySorted score_desc rr → rr !! i = Some (id, s) →
  dense_rank rr.*2 i = 1 + length (filter (λ e, s < e.2) rr).
Proof.
  intros Hsorted. revert id s. induction i as [|i IH]; intros id s Hi.
  - simpl. rewrite (count_prefix _ rr 0); [done|lia|].
    intros j x Hj.
    pose proof (sorted_desc_lookup rr 0 j _ _ Hsorted (Nat.le_0_l j) Hi Hj).
    simpl in *. lia.
  - destruct (lookup_lt_is_Some_2 rr i) as [[id' s'] Hi'];
      [apply lookup_lt_Some in Hi; lia|].
    cbn [dense_rank]. rewrite !list_lookup_fmap, Hi, Hi'. simpl.
    pose proof (sorted_desc_lookup rr i (S i) _ _ Hsorted (Nat.le_succ_diag_r i)
                  Hi' Hi) as Hle. simpl in Hle.
    destruct (decide (s = s')) as [->|Hne].
    + rewrite decide_True by done. by apply (IH id').
    + rewrite decide_False by congruence.
      rewrite (count_prefix _ rr (S i));
        [lia|apply lookup_lt_Some in Hi; lia|].
      intros j x Hj. split.
      * intros Hx. destruct (decide (j < S i)) as [|Hge]; [done|].
        assert (S i ≤ j) as Hij by lia.
        pose proof (sorted_desc_lookup rr (S i) j _ _ Hsorted Hij Hi Hj).
        simpl in *. lia.
      * intros Hj'. assert (j ≤ i) as Hji by lia.
        pose proof (sorted_desc_lookup rr j i _ _ Hsorted Hji Hj Hi').
        simpl in *. lia.
Qed.

Lemma filter_fmap_length {A B} (f : A → B) (P : B → Prop)
    `{!∀ y, Decision (P y)} (l : list A) :
  length (filter P (f <$> l)) = length (filter (λ x, P (f x)) l).
Proof.
  induction l as [|x l IH]; [done|]. rewrite fmap_cons, !filter_cons.
  case_decide; simpl; by rewrite IH.
Qed.

Lemma rankings_of_higher_count score (ps : list (string * Player)) s :
  length (filter (λ e, s < e.2) (rankings_of score ps)) = higher_count score ps s.
Proof.
  unfold rankings_of, higher_count.
  rewrite array_sort_perm.
  by rewrite (filter_fmap_length (λ e : string * Player, (e.1, score e.2))
                (λ e : string * nat, s < e.2)).
Qed.

(** The entries of the players object with a score projection applied: all
    that a ranking depends on. *)
Lemma higher_count_entries score (ps ps' : list (string * Player)) s :
  (λ e, (e.1, score e.2)) <$> ps' = (λ e, (e.1, score e.2)) <$> ps →
  higher_count score ps' s = higher_count score ps s.
Proof.
  intros Heq. unfold higher_count.
  trans (length (filter (λ e : string * nat, s < e.2)
                        ((λ e : string * Player, (e.1, score e.2)) <$> ps'))).
  { by rewrite filter_fmap_length. }
  rewrite Heq. by rewrite filter_fmap_length.
Qed.

(** The record [calculateRankings] leaves for a player: both ranks are one
    more than the number of players with a higher score. *)
Lemma calculateRankings_counts room id p :
  JsObject.wf (players room) →
  JsObject.get id (players room) = Some p →
  JsObject.get id (players (calculateRankings room))
  = Some (set_overallRank
            (Some (1 + higher_count totalScore (players room) (totalScore p)))
            (set_endOfRoundRank
               (Some (1 + higher_count currentRoundScore (players room)
                                       (currentRoundScore p))) p)).
Proof.
  intros Hwf Hp.
  destruct (calculateRankings_get room id p Hwf Hp) as (i & j & Hi & Hj & ->).
  rewrite (dense_rank_count (rankings_of currentRoundScore (players room))
             i id _ (array_sort_sorted _) Hi).
  rewrite (dense_rank_count (rankings_of totalScore (players room))
             j id _ (array_sort_sorted _) Hj).
  by rewrite !rankings_of_higher_count.
Qed.

Lemma calculateRankings_keys room :
  JsObject.keys (players (calculateRankings room)) = JsObject.keys (players room).
Proof.
  unfold calculateRankings. simpl. by rewrite !rank_loop_keys.
Qed.

Lemma calculateRankings_entries {B} (g : Player → B) room :
  (∀ r p, g (set_endOfRoundRank r p) = g p) →
  (∀ r p, g (set_overallRank r p) = g p) →
  (λ e, (e.1, g e.2)) <$> players (calculateRankings room)
  = (λ e, (e.1, g e.2)) <$> players room.
Proof.
  intros H1 H2. unfold calculateRankings. simpl.
  by rewrite !rank_loop_entries.
Qed.

(** X8.  The ranks [calculateRankings] writes do not depend on the order in
    which the players joined: for every player, [endOfRoundRank] is one more
    than the number of players with a higher [currentRoundScore], and
    [overallRank] one more than the number with a higher [totalScore].  The
    name, both scores and the recorded answers are what they were. *)
Theorem calculateRankings_rank_counts room id p :
  JsObject.wf (players room) →
  JsObject.get id (players room) = Some p →
  ∃ p',
    JsObject.get id (players (calculateRankings room)) = Some p'
    ∧ endOfRoundRank p'
      = Some (1 + higher_count currentRoundScore (players room)
                               (currentRoundScore p))
    ∧ overallRank p'
      = Some (1 + higher_count totalScore (players room) (totalScore p))
    ∧ name p' = name p
    ∧ currentRoundScore p' = currentRoundScore p
    ∧ totalScore p' = totalScore p
    ∧ currentRoundAnswers p' = currentRoundAnswers p.
Proof.
  intros Hwf Hp. eexists. split; [by apply calculateRankings_counts|done].
Qed.

Lemma calculateRankings_rank_counts_witness :
  JsObject.wf (players Sample.quintet)
  ∧ JsObject.get "s4" (players Sample.quintet) = Some (Sample.player "Di" 0 4)
  ∧ ∃ p',
      JsObject.get "s4" (players (calculateRankings Sample.quintet)) = Some p'
      ∧ endOfRoundRank p'
        = Some (1 + higher_count currentRoundScore (players Sample.quintet)
                                 (currentRoundScore (Sample.player "Di" 0 4)))
      ∧ overallRank p'
        = Some (1 + higher_count totalScore (players Sample.quintet)
                                 (totalScore (Sample.player "Di" 0 4)))
      ∧ name p' = name (Sample.player "Di" 0 4)
      ∧ currentRoundScore p' = currentRoundScore (Sample.player "Di" 0 4)
      ∧ totalScore p' = totalScore (Sample.player "Di" 0 4)
      ∧ currentRoundAnswers p' = currentRoundAnswers (Sample.player "Di" 0 4).
Proof.
  assert (JsObject.wf (players Sample.quintet)) as H1.
  { unfold JsObject.wf. apply (bool_decide_unpack _). by vm_compute. }
  assert (JsObject.get "s4" (players Sample.quintet)
          = Some (Sample.player "Di" 0 4)) as H2 by (vm_compute; reflexivity).
  exact (conj H1 (conj H2 (calculateRankings_rank_counts _ _ _ H1 H2))).
Defined.

Lemma higher_count_le score (ps : list (string * Player)) s1 s2 :
  s2 ≤ s1 → higher_count score ps s1 ≤ higher_count score ps s2.
Proof.
  intros Hs. unfold higher_count.
  induction ps as [|e ps IH]; [done|]. rewrite !filter_cons.
  repeat case_decide; simpl; lia.
Qed.

Lemma higher_count_lt score (ps : list (string * Player)) id p s1 s2 :
  (id, p) ∈ ps → s2 < score p → score p ≤ s1 →
  higher_count score ps s1 < higher_count score ps s2.
Proof.
  intros Hin Hlow Hhigh.
  induction ps as [|e ps IH]; [by apply elem_of_nil in Hin|].
  pose proof (higher_count_le score ps s1 s2) as Hle.
  unfold higher_count in *. rewrite !filter_cons.
  apply elem_of_cons in Hin as [<-|Hin].
  - simpl. rewrite decide_False, decide_True by lia. simpl. lia.
  - specialize (IH Hin). repeat case_decide; simpl; lia.
Qed.

Lemma higher_count_bound score (ps : list (string * Player)) id p :
  (id, p) ∈ ps → higher_count score ps (score p) < length ps.
Proof.
  intros Hin. unfold higher_count.
  induction ps as [|e ps IH]; [by apply elem_of_nil in Hin|].
  pose proof (length_filter (λ e : string * Player, score p < score e.2) ps).
  rewrite filter_cons. apply elem_of_cons in Hin as [<-|Hin].
  - simpl. rewrite decide_False by lia. simpl. lia.
  - specialize (IH Hin). case_decide; simpl; lia.
Qed.

(** X9.  The ranks [calculateRankings] writes agree with the scores: of two
    players of the room, the one with the higher score gets the strictly
    smaller rank and players with equal scores get equal ranks, for the round
    ranking as for the overall ranking; every rank lies between 1 and the
    number of players. *)
Theorem calculateRankings_order room id1 id2 p1 p2 :
  JsObject.wf (players room) →
  JsObject.get id1 (players room) = Some p1 →
  JsObject.get id2 (players room) = Some p2 →
  ∃ p1' p2' r1 r2 o1 o2,
    JsObject.get id1 (players (calculateRankings room)) = Some p1'
    ∧ JsObject.get id2 (players (calculateRankings room)) = Some p2'
    ∧ endOfRoundRank p1' = Some r1 ∧ endOfRoundRank p2' = Some r2
    ∧ overallRank p1' = Some o1 ∧ overallRank p2' = Some o2
    ∧ 1 ≤ r1 ≤ length (players room)
    ∧ 1 ≤ o1 ≤ length (players room)
    ∧ (currentRoundScore p1 = currentRoundScore p2 → r1 = r2)
    ∧ (currentRoundScore p2 < currentRoundScore p1 → r1 < r2)
    ∧ (totalScore p1 = totalScore p2 → o1 = o2)
    ∧ (totalScore p2 < totalScore p1 → o1 < o2).
Proof.
  intros Hwf Hp1 Hp2.
  pose proof (get_Some_elem _ _ _ Hp1) as Hin1.
  eexists _, _, _, _, _, _.
  split; [by apply calculateRankings_counts|].
  split; [by apply calculateRankings_counts|].
  simpl. do 4 (split; [reflexivity|]). split_and!.
  - lia.
  - pose proof (higher_count_bound currentRoundScore _ _ _ Hin1). lia.
  - lia.
  - pose proof (higher_count_bound totalScore _ _ _ Hin1). lia.
  - by intros ->.
  - intros Hlt.
    pose proof (higher_count_lt currentRoundScore _ id1 p1
                  (currentRoundScore p1) (currentRoundScore p2) Hin1 Hlt).
    lia.
  - by intros ->.
  - intros Hlt.
    pose proof (higher_count_lt totalScore _ id1 p1
                  (totalScore p1) (totalScore p2) Hin1 Hlt).
    lia.
Qed.

Lemma calculateRankings_order_witness :
  JsObject.wf (players Sample.quintet)
  ∧ JsObject.get "s2" (players Sample.quintet) = Some (Sample.player "Bob" 0 5)
  ∧ JsObject.get "s5" (players Sample.quintet) = Some (Sample.player "Ed" 0 3)
  ∧ totalScore (Sample.player "Ed" 0 3) < totalScore (Sample.player "Bob" 0 5)
  ∧ ∃ p1' p2' o1 o2,
      JsObject.get "s2" (players (calculateRankings Sample.quintet)) = Some p1'
      ∧ JsObject.get "s5" (players (calculateRankings Sample.quintet)) = Some p2'
      ∧ overallRank p1' = Some o1 ∧ overallRank p2' = Some o2
      ∧ o1 < o2.
Proof.
  assert (JsObject.wf (players Sample.quintet)) as H1.
  { unfold JsObject.wf. apply (bool_decide_unpack _). by vm_compute. }
  assert (JsObject.get "s2" (players Sample.quintet)
          = Some (Sample.player "Bob" 0 5)) as H2 by (vm_compute; reflexivity).
  assert (JsObject.get "s5" (players Sample.quintet)
          = Some (Sample.player "Ed" 0 3)) as H3 by (vm_compute; reflexivity).
  assert (totalScore (Sample.player "Ed" 0 3)
          < totalScore (Sample.player "Bob" 0 5)) as H4 by (simpl; lia).
  destruct (calculateRankings_order Sample.quintet "s2" "s5" _ _ H1 H2 H3)
    as (p1' & p2' & r1 & r2 & o1 & o2 & Hg1 & Hg2 & _ & _ & Ho1 & Ho2
        & _ & _ & _ & _ & _ & Hlt).
  exact (conj H1 (conj H2 (conj H3 (conj H4
           (ex_intro _ p1' (ex_intro _ p2' (ex_intro _ o1 (ex_intro _ o2
              (conj Hg1 (conj Hg2 (conj Ho1 (conj Ho2 (Hlt H4))))))))))))).
Defined.

(** Two objects with the same keys in the same order and the same value
    under every key are the same object. *)
Lemma obj_ext {V} (o1 o2 : list (string * V)) :
  JsObject.wf o1 → JsObject.keys o1 = JsObject.keys o2 →
  (∀ k, JsObject.get k o1 = JsObject.get k o2) → o1 = o2.
Proof.
  unfold JsObject.wf, JsObject.keys. revert o2.
  induction o1 as [|[k1 v1] o1 IH]; intros [|[k2 v2] o2] Hwf Hkeys Hget;
    try done.
  simpl in *. injection Hkeys as -> Hkeys.
  apply NoDup_cons in Hwf as [Hk2 Hwf].
  pose proof (Hget k2) as Hk. rewrite !decide_True in Hk by done.
  injection Hk as ->. f_equal. apply IH; [done..|].
  intros k. specialize (Hget k).
  destruct (decide (k2 = k)) as [->|]; [|done].
  assert (JsObject.get k o1 = None) as ->
    by (by apply get_None_keys).
  symmetry. apply get_None_keys. unfold JsObject.keys.
  change (o2.*1) with (list_fmap _ _ fst o2). by rewrite <-Hkeys.
Qed.

Lemma calculateRankings_wf room :
  JsObject.wf (players room) → JsObject.wf (players (calculateRankings room)).
Proof. unfold JsObject.wf. by rewrite calculateRankings_keys. Qed.

Lemma calculateRankings_idem room :
  JsObject.wf (players room) →
  calculateRankings (calculateRankings room) = calculateRankings room.
Proof.
  intros Hwf.
  assert (players (calculateRankings (calculateRankings room))
          = players (calculateRankings room)) as Hps.
  { apply obj_ext.
    - by do 2 apply calculateRankings_wf.
    - apply calculateRankings_keys.
    - intros id.
      destruct (JsObject.get id (players room)) as [p|] eqn:Hp.
      + pose proof (calculateRankings_counts room id p Hwf Hp) as Hp'.
        rewrite (calculateRankings_counts _ id _ (calculateRankings_wf _ Hwf) Hp').
        rewrite Hp'. simpl.
        rewrite !(higher_count_entries _ (players room)
                    (players (calculateRankings room)))
          by (by apply calculateRankings_entries).
        done.
      + assert (JsObject.get id (players (calculateRankings room)) = None) as Hn.
        { apply get_None_keys. rewrite calculateRankings_keys.
          by apply get_None_keys. }
        rewrite Hn. apply get_None_keys.
        rewrite calculateRankings_keys. by apply get_None_keys. }
  unfold calculateRankings at 1.
  change (rank_loop set_overallRank _ _)
    with (players (calculateRankings (calculateRankings room))).
  rewrite Hps. by destruct room.
Qed.

(** X10.  [calculateRankings] can be called again at no cost: on a room whose
    ranks it has just computed it changes nothing.  It writes the two rank
    fields of the players and nothing else of the room: the players and their
    order, the progress, the settings and [quizStarted] are what they were. *)
Theorem calculateRankings_idempotent room :
  JsObject.wf (players room) →
  calculateRankings (calculateRankings room) = calculateRankings room
  ∧ JsObject.keys (players (calculateRankings room)) = JsObject.keys (players room)
  ∧ currentProgress (calculateRankings room) = currentProgress room
  ∧ quizStarted (calculateRankings room) = quizStarted room
  ∧ keeps_config room (calculateRankings room)
  ∧ (λ e, (e.1, (name e.2, currentRoundScore e.2, totalScore e.2,
                 currentRoundAnswers e.2)))
    <$> players (calculateRankings room)
    = (λ e, (e.1, (name e.2, currentRoundScore e.2, totalScore e.2,
                   currentRoundAnswers e.2)))
      <$> players room.
Proof.
  intros Hwf. split_and!.
  - by apply calculateRankings_idem.
  - apply calculateRankings_keys.
  - done.
  - done.
  - by repeat split.
  - by apply (calculateRankings_entries
                (λ p, (name p, currentRoundScore p, totalScore p,
                       currentRoundAnswers p))).
Qed.

Lemma calculateRankings_idempotent_witness :
  JsObject.wf (players Sample.trio)
  ∧ calculateRankings (calculateRankings Sample.trio) = calculateRankings Sample.trio.
Proof.
  assert (JsObject.wf (players Sample.trio)) as H1.
  { unfold JsObject.wf. apply (bool_decide_unpack _). by vm_compute. }
  exact (conj H1 (proj1 (calculateRankings_idempotent Sample.trio H1))).
Defined.

(** ** [endOfRound] and [endOfGame] *)

(** Looking each key up gives the entries back. *)
Lemma keys_get_entries {V B} (F : string → option V → B) (o : list (string * V)) :
  JsObject.wf o →
  (λ k, F k (JsObject.get k o)) <$> JsObject.keys o
  = (λ e, F e.1 (Some e.2)) <$> o.
Proof.
  intros Hwf. unfold JsObject.keys. rewrite <-list_fmap_compose.
  apply list_fmap_ext. intros i [k v] Hi. simpl. f_equal.
  apply elem_get_Some; [done|]. by eapply list_elem_of_lookup_2.
Qed.

(** The notifications of a room that has just been ranked. *)
Lemma notify_ranked event message room :
  JsObject.wf (players room) →
  notify_players event message (calculateRankings room)
  = (λ e, Emit e.1 event (PPlayerData message (roomId room) (Some e.2)))
    <$> players (calculateRankings room).
Proof.
  intros Hwf. unfold notify_players.
  apply (keys_get_entries
           (λ k o, Emit k event (PPlayerData message (roomId room) o))).
  by apply calculateRankings_wf.
Qed.

(** X11.  [endOfRound] ranks the room, stores it, replies with it and sends
    one [quiz:endOfRound] message per player, in join order, each to the
    player's own socket and carrying that player's own ranked record.
    [endOfGame] does the same under its own event name and message.  Asking
    again, for the round or for the game, right after [endOfRound] leaves the
    registry as [endOfRound] left it. *)
Theorem endOfRound_notifies rid rooms room :
  rooms !! rid = Some room →
  JsObject.wf (players room) →
  endOfRound rid rooms
  = mkOutcome (Replied (ReplyRoom (calculateRankings room)))
      (<[rid := calculateRankings room]> rooms)
      ((λ e, Emit e.1 "quiz:endOfRound"
               (PPlayerData "The round has ended." (roomId room) (Some e.2)))
       <$> players (calculateRankings room))
  ∧ endOfGame rid rooms
    = mkOutcome (Replied (ReplyRoom (calculateRankings room)))
        (<[rid := calculateRankings room]> rooms)
        ((λ e, Emit e.1 "quiz:endOfGame"
                 (PPlayerData "The game has ended." (roomId room) (Some e.2)))
         <$> players (calculateRankings room))
  ∧ length (effects (endOfRound rid rooms)) = length (players room)
  ∧ endOfRound rid (registry (endOfRound rid rooms)) = endOfRound rid rooms
  ∧ registry (endOfGame rid (registry (endOfRound rid rooms)))
    = registry (endOfRound rid rooms).
Proof.
  intros Hroom Hwf.
  pose proof (calculateRankings_wf room Hwf) as Hwf'.
  pose proof (notify_ranked "quiz:endOfRound" "The round has ended." room Hwf)
    as Hround.
  pose proof (notify_ranked "quiz:endOfGame" "The game has ended." room Hwf)
    as Hgame.
  assert (endOfRound rid rooms
          = mkOutcome (Replied (ReplyRoom (calculateRankings room)))
              (<[rid := calculateRankings room]> rooms)
              ((λ e, Emit e.1 "quiz:endOfRound"
                       (PPlayerData "The round has ended." (roomId room) (Some e.2)))
               <$> players (calculateRankings room))) as Heq.
  { unfold endOfRound. rewrite Hroom. cbv zeta. by rewrite Hround. }
  split_and!.
  - exact Heq.
  - unfold endOfGame. rewrite Hroom. cbv zeta. by rewrite Hgame.
  - rewrite Heq. cbn [effects]. rewrite length_fmap.
    rewrite <-(length_fmap fst (players (calculateRankings room))),
            <-(length_fmap fst (players room)).
    f_equal. apply calculateRankings_keys.
  - rewrite Heq at 1. cbn [registry].
    unfold endOfRound at 1. rewrite lookup_insert_eq. cbv zeta.
    rewrite (calculateRankings_idem room Hwf), insert_insert_eq, Hround.
    by rewrite Heq.
  - rewrite Heq. cbn [registry].
    unfold endOfGame. rewrite lookup_insert_eq. cbv zeta. cbn [registry].
    by rewrite (calculateRankings_idem room Hwf), insert_insert_eq.
Qed.

Lemma endOfRound_notifies_witness :
  Sample.registry_of Sample.trio !! "482913" = Some Sample.trio
  ∧ JsObject.wf (players Sample.trio)
  ∧ length (effects (endOfRound "482913" (Sample.registry_of Sample.trio)))
    = length (players Sample.trio)
  ∧ endOfRound "482913"
      (registry (endOfRound "482913" (Sample.registry_of Sample.trio)))
    = endOfRound "482913" (Sample.registry_of Sample.trio).
Proof.
  assert (Sample.registry_of Sample.trio !! "482913" = Some Sample.trio)
    as H1 by (vm_compute; reflexivity).
  assert (JsObject.wf (players Sample.trio)) as H2.
  { unfold JsObject.wf. apply (bool_decide_unpack _). by vm_compute. }
  destruct (endOfRound_notifies "482913" _ _ H1 H2) as (_ & _ & Hlen & Hagain & _).
  exact (conj H1 (conj H2 (conj Hlen Hagain))).
Defined.

(** ** The handlers as a transition system *)

(** Every handler run is one step of the registry. *)
Lemma handle_registry_step w e rooms :
  registry_step rooms (registry (handle w e rooms)).
Proof.
  destruct e as [sid qtl qpr plan m|sid rid|sid rid nm|sid rid qid|sid rid
                 |sid rid|sid rid a|sid rid]; simpl.
  - unfold create, createRoom.
    destruct (generateUniqueRoomId _ _ _ _) as [[code k]|] eqn:Hid;
      [|constructor].
    rewrite (generateRound_next _ _ _ _ _ _ _ _ (round_at plan 0)) by done.
    destruct (provider w _) as [results|]; [|constructor]. simpl.
    apply generateUniqueRoomId_Some in Hid as (? & ? & ? & ? & Hfree & ?).
    by apply registry_create.
  - unfold startQuiz. destruct (rooms !! rid) as [room|] eqn:Hr; [|constructor].
    case_decide; [constructor|]. simpl.
    eapply registry_update; [done|constructor].
  - unfold playerJoin. destruct (rooms !! rid) as [room|] eqn:Hr; [|constructor].
    destruct (quizStarted room) eqn:Hq; [constructor|].
    destruct (JsObject.get sid (players room)) eqn:Hp; [constructor|]. simpl.
    eapply registry_update; [done|by constructor].
  - unfold nextQuestion. destruct (rooms !! rid) as [room|] eqn:Hr; [|constructor].
    simpl. eapply registry_update; [done|constructor].
  - unfold endOfRound. destruct (rooms !! rid) as [room|] eqn:Hr; [|constructor].
    cbn [registry]. eapply registry_update; [done|constructor].
  - unfold nextRound. destruct (rooms !! rid) as [room|] eqn:Hr; [|constructor].
    unfold generateRound.
    destruct (nextCategoryId _ _) as [next|].
    + destruct (provider w _) as [results|]; [|constructor].
      destruct (format_questions _ _ _ _ _) as [qs k']. cbn [registry].
      eapply registry_update; [done|].
      apply (step_round room (RQObject qs) next).
    + cbn [registry]. eapply registry_update; [done|].
      apply (step_round room RQEndOfRound (currentRound (currentProgress room))).
  - unfold submitAnswer. destruct (rooms !! rid) as [room|] eqn:Hr; [|constructor].
    destruct (JsObject.get sid (players room)); [|constructor].
    destruct (question_slot _ _); try apply registry_same. cbn [registry].
    eapply registry_update; [done|constructor].
  - unfold endOfGame. destruct (rooms !! rid) as [room|] eqn:Hr; [|constructor].
    cbn [registry]. eapply registry_update; [done|constructor].
Qed.

(** A property of registries that every registry step keeps holds along
    every sequence of events. *)
Lemma run_keeps (P : Rooms → Prop) :
  (∀ rooms rooms', registry_step rooms rooms' → P rooms → P rooms') →
  ∀ es rooms, P rooms → P (run es rooms).
Proof.
  intros Hstep es. induction es as [|[w e] es IH]; intros rooms HP; [done|].
  simpl. apply IH. eapply Hstep; [apply handle_registry_step|done].
Qed.

(** A property of rooms that a created room has and every room step keeps
    is kept, for all rooms of the registry, by every registry step. *)
Lemma registry_step_Forall (P : string → Room → Prop) rooms rooms' :
  (∀ code room, roomId room = code → players room = [] →
     quizStarted room = false → P code room) →
  (∀ rid room room', room_step room room' → P rid room → P rid room') →
  registry_step rooms rooms' → map_Forall P rooms → map_Forall P rooms'.
Proof.
  intros Hnew Hkeep Hstep HP.
  destruct Hstep as [|rid room room' Hroom Hrs|code room' Hfree Hid Hps Hq];
    [done|..]; apply map_Forall_insert_2; eauto.
Qed.

Lemma get_fmap {A B} (g : A → B) k (o : list (string * A)) :
  JsObject.get k ((λ e, (e.1, g e.2)) <$> o) = g <$> JsObject.get k o.
Proof.
  induction o as [|[k0 v] o IH]; simpl; [done|]. by case_decide.
Qed.

(** What [calculateRankings] leaves of a player, read through a projection
    that does not look at the ranks. *)
Lemma calculateRankings_get_proj {B} (g : Player → B) room id :
  (∀ r p, g (set_endOfRoundRank r p) = g p) →
  (∀ r p, g (set_overallRank r p) = g p) →
  g <$> JsObject.get id (players (calculateRankings room))
  = g <$> JsObject.get id (players room).
Proof.
  intros H1 H2. rewrite <-!get_fmap.
  by rewrite (calculateRankings_entries g room H1 H2).
Qed.

Lemma keeps_players_refl : Reflexive keeps_players.
Proof. intros room id p Hp. eauto. Qed.

Lemma keeps_players_trans : Transitive keeps_players.
Proof.
  intros r1 r2 r3 H12 H23 id p Hp.
  destruct (H12 id p Hp) as (p2 & Hp2 & Hn2 & Ht2).
  destruct (H23 id p2 Hp2) as (p3 & Hp3 & Hn3 & Ht3).
  exists p3. split_and!; [done|congruence|lia].
Qed.

Lemma keeps_config_refl : Reflexive keeps_config.
Proof. intros room. by repeat split. Qed.

Lemma keeps_config_trans : Transitive keeps_config.
Proof.
  intros r1 r2 r3 (?&?&?&?&?&?&?) (?&?&?&?&?&?&?).
  repeat split; try congruence. auto.
Qed.

Lemma room_step_keeps_players room room' :
  room_step room room' → keeps_players room room'.
Proof.
  intros Hstep id p Hp.
  destruct Hstep as [| |sid nm Hq Hnew|qid| |value cat|sid qid b].
  - eauto.
  - eauto.
  - simpl. rewrite get_set. rewrite decide_False by congruence. eauto.
  - eauto.
  - pose proof (calculateRankings_get_proj (λ p, (name p, totalScore p)) room id
                  (λ _ _, eq_refl) (λ _ _, eq_refl)) as Hproj.
    rewrite Hp in Hproj.
    destruct (JsObject.get id (players (calculateRankings room))) as [p'|];
      [|done].
    injection Hproj as Hn Ht. exists p'. split_and!; [done..|lia].
  - simpl. rewrite reset_players_get, Hp. simpl. eauto.
  - simpl. rewrite get_alter, Hp. case_decide; simpl; [|eauto].
    eexists. split; [done|]. destruct b; simpl; split; [done|lia|done|lia].
Qed.

Lemma room_step_keeps_config room room' :
  room_step room room' → keeps_config room room'.
Proof. intros []; by repeat split. Qed.

Lemma room_step_wf room room' :
  room_step room room' →
  JsObject.wf (players room) → JsObject.wf (players room').
Proof.
  intros Hstep Hwf.
  destruct Hstep as [| |sid nm Hq Hnew|qid| |value cat|sid qid b]; simpl;
    try done.
  - by apply set_fresh_wf.
  - by apply calculateRankings_wf.
  - unfold JsObject.wf, reset_players. by rewrite foldl_alter_keys.
  - unfold JsObject.wf. by rewrite keys_alter.
Qed.

Lemma room_step_round_within_total room room' :
  room_step room room' →
  (∀ id p, JsObject.get id (players room) = Some p →
     currentRoundScore p ≤ totalScore p) →
  ∀ id p, JsObject.get id (players room') = Some p →
    currentRoundScore p ≤ totalScore p.
Proof.
  intros Hstep Hinv id p'.
  destruct Hstep as [| |sid nm Hq Hnew|qid| |value cat|sid qid b].
  - apply Hinv.
  - apply Hinv.
  - simpl. rewrite get_set. case_decide; [by intros [= <-]|apply Hinv].
  - apply Hinv.
  - intros Hp'.
    pose proof (calculateRankings_get_proj
                  (λ p, (currentRoundScore p, totalScore p)) room id
                  (λ _ _, eq_refl) (λ _ _, eq_refl)) as Hproj.
    rewrite Hp' in Hproj.
    destruct (JsObject.get id (players room)) as [p|] eqn:Hp; [|done].
    injection Hproj as -> ->. by apply (Hinv id).
  - simpl. rewrite reset_players_get.
    destruct (JsObject.get id (players room)) as [p|]; [|done].
    intros [= <-]. simpl. lia.
  - simpl. rewrite get_alter.
    destruct (JsObject.get id (players room)) as [p|] eqn:Hp;
      [|by case_decide].
    specialize (Hinv id p Hp).
    case_decide; intros [= <-]; [|done].
    destruct b; simpl; lia.
Qed.

(** A handler that works on a stored room leaves the registry as it is or
    changes the room its payload names, by one room step. *)
Lemma room_handler_step w e rooms rid :
  event_roomId e = Some rid →
  registry (handle w e rooms) = rooms
  ∨ ∃ room room',
      rooms !! rid = Some room ∧ room_step room room'
      ∧ registry (handle w e rooms) = <[rid := room']> rooms.
Proof.
  intros He.
  destruct e as [sid qtl qpr plan m|sid rid0|sid rid0 nm|sid rid0 qid|sid rid0
                 |sid rid0|sid rid0 a|sid rid0]; simplify_eq/=.
  - unfold startQuiz. destruct (rooms !! rid) as [room|] eqn:Hr; [|by left].
    case_decide; [by left|]. right. exists room. eexists.
    split_and!; [done|apply step_started|done].
  - unfold playerJoin. destruct (rooms !! rid) as [room|] eqn:Hr; [|by left].
    destruct (quizStarted room) eqn:Hq; [by left|].
    destruct (JsObject.get sid (players room)) eqn:Hp; [by left|].
    right. exists room. eexists.
    split_and!; [done|by apply (step_joined room sid nm)|done].
  - unfold nextQuestion. destruct (rooms !! rid) as [room|] eqn:Hr; [|by left].
    right. exists room. eexists.
    split_and!; [done|apply (step_question room qid)|done].
  - unfold endOfRound. destruct (rooms !! rid) as [room|] eqn:Hr; [|by left].
    right. exists room. eexists.
    split_and!; [done|apply step_ranked|done].
  - unfold nextRound, generateRound.
    destruct (rooms !! rid) as [room|] eqn:Hr; [|by left].
    destruct (nextCategoryId _ _) as [next|].
    + destruct (provider w _) as [results|]; [|by left].
      destruct (format_questions _ _ _ _ _) as [qs k'].
      right. exists room. eexists.
      split_and!; [done|apply (step_round room (RQObject qs) next)|done].
    + right. exists room. eexists.
      split_and!;
        [done
        |apply (step_round room RQEndOfRound (currentRound (currentProgress room)))
        |done].
  - unfold submitAnswer. destruct (rooms !! rid) as [room|] eqn:Hr; [|by left].
    destruct (JsObject.get sid (players room)); [|by left].
    destruct (question_slot _ _) as [| | |q]; try (by left).
    right. exists room. eexists.
    split_and!; [done|apply step_answered|done].
  - unfold endOfGame. destruct (rooms !! rid) as [room|] eqn:Hr; [|by left].
    right. exists room. eexists.
    split_and!; [done|apply step_ranked|done].
Qed.

(** A relation on rooms that every room step respects relates a stored room
    to what any sequence of events of those handlers makes of it: the room is
    still there. *)
Lemma run_room_events_rel (R : relation Room) :
  Reflexive R → Transitive R →
  (∀ room room', room_step room room' → R room room') →
  ∀ es, room_events es →
    ∀ rooms rid room, rooms !! rid = Some room →
      ∃ room', run es rooms !! rid = Some room' ∧ R room room'.
Proof.
  intros Hrefl Htrans HR es Hes.
  induction Hes as [|[w e] es [rid0 He] Hes IH]; intros rooms rid room Hroom.
  { exists room. by split. }
  simpl in He. cbn [run].
  assert (∃ room1, registry (handle w e rooms) !! rid = Some room1 ∧ R room room1)
    as (room1 & Hroom1 & HR1).
  { destruct (room_handler_step w e rooms rid0 He)
      as [->|(room0 & room0' & Hroom0 & Hstep & ->)].
    - exists room. by split.
    - destruct (decide (rid0 = rid)) as [->|Hne].
      + rewrite lookup_insert_eq. simplify_eq. eauto.
      + rewrite lookup_insert_ne by done. exists room. by split. }
  destruct (IH _ rid room1 Hroom1) as (room' & Hroom' & HR').
  exists room'. split; [done|]. by trans room1.
Qed.

(** ** What the handlers of a stored room never undo *)

(** X12.  None of the handlers that work on a stored room ([startQuiz],
    [playerJoin], [nextQuestion], [endOfRound], [nextRound], [submitAnswer],
    [endOfGame]) removes a room from the registry or a player from a room,
    renames a player or lowers a total score: after any sequence of their
    events, a room that was in the registry is still there under its code,
    and every player it had is still in it under the same socket id, with the
    same name and a [totalScore] that is at least what it was.  ([create] is
    not among these events: it stores its room after an await, under the code
    it drew before.) *)
Theorem run_keeps_players es rooms rid room :
  room_events es →
  rooms !! rid = Some room →
  ∃ room', run es rooms !! rid = Some room' ∧ keeps_players room room'.
Proof.
  intros Hes.
  apply (run_room_events_rel keeps_players keeps_players_refl
           keeps_players_trans room_step_keeps_players es Hes).
Qed.

Lemma run_keeps_players_witness :
  room_events [(Sample.world, SubmitAnswer "s1" "482913" 2);
               (Sample.world, QuizNextRound "gm" "482913")]
  ∧ Sample.registry_of Sample.started1 !! "482913" = Some Sample.started1
  ∧ ∃ room',
      run [(Sample.world, SubmitAnswer "s1" "482913" 2);
           (Sample.world, QuizNextRound "gm" "482913")]
          (Sample.registry_of Sample.started1) !! "482913" = Some room'
      ∧ keeps_players Sample.started1 room'.
Proof.
  assert (room_events [(Sample.world, SubmitAnswer "s1" "482913" 2);
                       (Sample.world, QuizNextRound "gm" "482913")]) as H0.
  { repeat (apply Forall_cons; split; [by eexists|]). apply Forall_nil_2. }
  assert (Sample.registry_of Sample.started1 !! "482913" = Some Sample.started1)
    as H1 by (vm_compute; reflexivity).
  exact (conj H0 (conj H1 (run_keeps_players _ _ _ _ H0 H1))).
Defined.

(** X13.  None of the handlers that work on a stored room changes what the
    room was created with: after any sequence of their events the room is
    still in the registry with the same [roomId], [gameMaster],
    [questionTimeLimit], [questionPerRound], [mode] and [rounds], and once
    [quizStarted] is true it stays true.  ([create] is not among these
    events.) *)
Theorem run_keeps_config es rooms rid room :
  room_events es →
  rooms !! rid = Some room →
  ∃ room', run es rooms !! rid = Some room' ∧ keeps_config room room'.
Proof.
  intros Hes.
  apply (run_room_events_rel keeps_config keeps_config_refl
           keeps_config_trans room_step_keeps_config es Hes).
Qed.

Lemma run_keeps_config_witness :
  room_events [(Sample.world, QuizNextRound "gm" "482913");
               (Sample.world, QuizStart "gm" "482913")]
  ∧ Sample.registry_of Sample.started1 !! "482913" = Some Sample.started1
  ∧ ∃ room',
      run [(Sample.world, QuizNextRound "gm" "482913");
           (Sample.world, QuizStart "gm" "482913")]
          (Sample.registry_of Sample.started1) !! "482913" = Some room'
      ∧ keeps_config Sample.started1 room'.
Proof.
  assert (room_events [(Sample.world, QuizNextRound "gm" "482913");
                       (Sample.world, QuizStart "gm" "482913")]) as H0.
  { repeat (apply Forall_cons; split; [by eexists|]). apply Forall_nil_2. }
  assert (Sample.registry_of Sample.started1 !! "482913" = Some Sample.started1)
    as H1 by (vm_compute; reflexivity).
  exact (conj H0 (conj H1 (run_keeps_config _ _ _ _ H0 H1))).
Defined.

(** ** Invariants of the registry *)

(** X14.  Every room sits in the registry under its own [roomId]: this holds
    for the empty registry, every event keeps it, and so it holds after any
    sequence of events from the empty registry.  (The handlers address their
    broadcasts to [room.roomId] after looking the room up by the payload's
    room id; the two are the same.) *)
Theorem registry_keyed_by_roomId :
  keyed_by_roomId ∅
  ∧ (∀ w e rooms,
       keyed_by_roomId rooms → keyed_by_roomId (registry (handle w e rooms)))
  ∧ (∀ es, keyed_by_roomId (run es ∅))
  ∧ (∀ es rid room, run es ∅ !! rid = Some room → roomId room = rid).
Proof.
  assert (∀ rooms rooms', registry_step rooms rooms' →
            keyed_by_roomId rooms → keyed_by_roomId rooms') as Hstep.
  { intros rooms rooms'. apply registry_step_Forall; [done|].
    intros rid room room' Hrs <-.
    by destruct (room_step_keeps_config _ _ Hrs) as [-> _]. }
  assert (∀ es, keyed_by_roomId (run es ∅)) as Hrun.
  { intros es. apply (run_keeps keyed_by_roomId Hstep), map_Forall_empty. }
  split_and!; [apply map_Forall_empty| |done|].
  - intros w e rooms. apply Hstep, handle_registry_step.
  - intros es rid room Hroom.
    exact (map_Forall_lookup_1 (λ k r, roomId r = k) _ _ _ (Hrun es) Hroom).
Qed.

Lemma registry_keyed_by_roomId_witness :
  keyed_by_roomId (Sample.registry_of Sample.lobby1)
  ∧ keyed_by_roomId
      (registry (handle Sample.world (PlayerJoin "s2" "482913" "Bob")
                   (Sample.registry_of Sample.lobby1))).
Proof.
  assert (keyed_by_roomId (Sample.registry_of Sample.lobby1)) as H1.
  { apply map_Forall_singleton. reflexivity. }
  exact (conj H1 (proj1 (proj2 registry_keyed_by_roomId) _ _ _ H1)).
Defined.

(** X15.  A socket never has two player records in a room: the players
    object of every room keeps each socket id once.  This holds for the empty
    registry, every event keeps it, and so it holds after any sequence of
    events from the empty registry. *)
Theorem players_stay_wf :
  players_wf ∅
  ∧ (∀ w e rooms, players_wf rooms → players_wf (registry (handle w e rooms)))
  ∧ (∀ es, players_wf (run es ∅))
  ∧ (∀ es rid room, run es ∅ !! rid = Some room → NoDup (JsObject.keys (players room))).
Proof.
  assert (∀ rooms rooms', registry_step rooms rooms' →
            players_wf rooms → players_wf rooms') as Hstep.
  { intros rooms rooms'. apply registry_step_Forall.
    - intros code room _ Hps _. unfold JsObject.wf. rewrite Hps. apply NoDup_nil_2.
    - intros rid room room'. apply room_step_wf. }
  assert (∀ es, players_wf (run es ∅)) as Hrun.
  { intros es. apply (run_keeps players_wf Hstep), map_Forall_empty. }
  split_and!; [apply map_Forall_empty| |done|].
  - intros w e rooms. apply Hstep, handle_registry_step.
  - intros es rid room Hroom.
    exact (map_Forall_lookup_1 (λ _ r, JsObject.wf (players r)) _ _ _
             (Hrun es) Hroom).
Qed.

Lemma players_stay_wf_witness :
  players_wf (Sample.registry_of Sample.lobby1)
  ∧ players_wf
      (registry (handle Sample.world (PlayerJoin "s2" "482913" "Bob")
                   (Sample.registry_of Sample.lobby1))).
Proof.
  assert (players_wf (Sample.registry_of Sample.lobby1)) as H1.
  { apply map_Forall_singleton. unfold JsObject.wf.
    apply (bool_decide_unpack _). by vm_compute. }
  exact (conj H1 (proj1 (proj2 players_stay_wf) _ _ _ H1)).
Defined.

(** X16.  A player's [currentRoundScore] never exceeds the [totalScore]: both
    start at 0, [submitAnswer] raises them together and [nextRound] puts the
    round score back to 0.  This holds for the empty registry, every event
    keeps it, and so it holds after any sequence of events from the empty
    registry. *)
Theorem round_score_within_total :
  round_within_total ∅
  ∧ (∀ w e rooms,
       round_within_total rooms → round_within_total (registry (handle w e rooms)))
  ∧ (∀ es, round_within_total (run es ∅))
  ∧ (∀ es rid room id p,
       run es ∅ !! rid = Some room → JsObject.get id (players room) = Some p →
       currentRoundScore p ≤ totalScore p).
Proof.
  assert (∀ rooms rooms', registry_step rooms rooms' →
            round_within_total rooms → round_within_total rooms') as Hstep.
  { intros rooms rooms'. apply registry_step_Forall.
    - intros code room _ Hps _ id p. by rewrite Hps.
    - intros rid room room'. apply room_step_round_within_total. }
  assert (∀ es, round_within_total (run es ∅)) as Hrun.
  { intros es. apply (run_keeps round_within_total Hstep), map_Forall_empty. }
  split_and!; [apply map_Forall_empty| |done|].
  - intros w e rooms. apply Hstep, handle_registry_step.
  - intros es rid room id p Hroom.
    exact (map_Forall_lookup_1
             (λ _ r, ∀ id p, JsObject.get id (players r) = Some p →
                       currentRoundScore p ≤ totalScore p) _ _ _
             (Hrun es) Hroom id p).
Qed.

Lemma round_score_within_total_witness :
  round_within_total (Sample.registry_of Sample.lobby1)
  ∧ round_within_total
      (registry (handle Sample.world (SubmitAnswer "s1" "482913" 2)
                   (Sample.registry_of Sample.lobby1))).
Proof.
  assert (round_within_total (Sample.registry_of Sample.lobby1)) as H1.
  { apply map_Forall_singleton. intros id p. simpl.
    case_decide; [|done]. intros [= <-]. simpl. lia. }
  exact (conj H1 (proj1 (proj2 round_score_within_total) _ _ _ H1)).
Defined.

(** ** Joining, starting, and the life of a room *)

Lemma set_fresh_append {V} k (v : V) (o : list (string * V)) :
  JsObject.get k o = None → JsObject.set k v o = o ++ [(k, v)].
Proof.
  induction o as [|[k0 v0] o IH]; simpl; [done|].
  case_decide; [done|]. intros Hk. f_equal. by apply IH.
Qed.

(** X17.  A join in the lobby from a socket that has no player yet adds
    exactly one player, after the players already there: a record with the
    name given, both scores 0, no answers and no ranks.  The players already
    there are untouched; the socket is put into the room's channel and the
    game master is sent the name with the room as it is after the join. *)
Theorem playerJoin_adds socket_id rid playerName rooms room :
  rooms !! rid = Some room →
  quizStarted room = false →
  JsObject.get socket_id (players room) = None →
  let room' :=
    set_players (players room ++ [(socket_id, initializePlayer playerName)]) room in
  playerJoin socket_id rid playerName rooms
  = mkOutcome (Replied (ReplyRoom room')) (<[rid := room']> rooms)
      [SocketJoin socket_id (roomId room);
       Emit (gameMaster room) "player:joined" (PPlayerJoined playerName room')]
  ∧ length (players room') = length (players room) + 1
  ∧ JsObject.get socket_id (players room')
    = Some (mkPlayer playerName 0 0 ∅ None None)
  ∧ ∀ id, id ≠ socket_id →
      JsObject.get id (players room') = JsObject.get id (players room).
Proof.
  intros Hroom Hq Hnew room'. split_and!.
  - unfold playerJoin. rewrite Hroom, Hq, Hnew.
    by rewrite (set_fresh_append _ _ _ Hnew).
  - subst room'. simpl. rewrite length_app. simpl. lia.
  - subst room'. simpl. rewrite <-(set_fresh_append _ _ _ Hnew).
    by rewrite get_set, decide_True.
  - intros id Hne. subst room'. simpl.
    rewrite <-(set_fresh_append _ _ _ Hnew).
    by rewrite get_set, decide_False.
Qed.

Lemma playerJoin_adds_witness :
  Sample.registry_of Sample.lobby1 !! "482913" = Some Sample.lobby1
  ∧ quizStarted Sample.lobby1 = false
  ∧ JsObject.get "s2" (players Sample.lobby1) = None
  ∧ playerJoin "s2" "482913" "Bob" (Sample.registry_of Sample.lobby1)
    = mkOutcome
        (Replied (ReplyRoom
           (set_players (players Sample.lobby1 ++ [("s2", initializePlayer "Bob")])
                        Sample.lobby1)))
        (<["482913" :=
             set_players (players Sample.lobby1 ++ [("s2", initializePlayer "Bob")])
                         Sample.lobby1]> (Sample.registry_of Sample.lobby1))
        [SocketJoin "s2" (roomId Sample.lobby1);
         Emit (gameMaster Sample.lobby1) "player:joined"
              (PPlayerJoined "Bob"
                 (set_players
                    (players Sample.lobby1 ++ [("s2", initializePlayer "Bob")])
                    Sample.lobby1))].
Proof.
  assert (Sample.registry_of Sample.lobby1 !! "482913" = Some Sample.lobby1)
    as H1 by (vm_compute; reflexivity).
  assert (quizStarted Sample.lobby1 = false) as H2 by reflexivity.
  assert (JsObject.get "s2" (players Sample.lobby1) = None)
    as H3 by (vm_compute; reflexivity).
  exact (conj H1 (conj H2 (conj H3
           (proj1 (playerJoin_adds "s2" "482913" "Bob" _ _ H1 H2 H3))))).
Defined.

(** The room [create] replies with is the room it stored, under a code that
    was free, without players and not started. *)
Lemma create_replied w socket_id qtl qpr plan m rooms room :
  completion (create w socket_id qtl qpr plan m rooms) = Replied (ReplyRoom room) →
  registry (create w socket_id qtl qpr plan m rooms) = <[roomId room := room]> rooms
  ∧ rooms !! roomId room = None
  ∧ players room = [] ∧ quizStarted room = false
  ∧ gameMaster room = socket_id ∧ rounds room = plan
  ∧ currentQuestion (currentProgress room) = 1%Z.
Proof.
  unfold create, createRoom.
  destruct (generateUniqueRoomId _ _ _ _) as [[code k]|] eqn:Hid; [|done].
  rewrite (generateRound_next _ _ _ _ _ _ _ _ (round_at plan 0)) by done.
  destruct (provider w _) as [results|]; [|done]. simpl.
  intros [= <-]. simpl. split_and!; try done.
  by apply generateUniqueRoomId_Some in Hid as (? & ? & ? & ? & ? & ?).
Qed.

(** X18.  The life of a room from its creation.  In the registry [create]
    leaves on success, the new room cannot be started while nobody has
    joined ([NoPlayers], nothing changes); once a player has joined,
    [startQuiz] succeeds; and from then on every join is rejected with
    [QuizAlreadyStarted], also one from the socket that is already in. *)
Theorem create_join_start w gm qtl qpr plan m rooms room sid nm sid' nm' :
  completion (create w gm qtl qpr plan m rooms) = Replied (ReplyRoom room) →
  let code := roomId room in
  let rooms1 := registry (create w gm qtl qpr plan m rooms) in
  let rooms2 := registry (playerJoin sid code nm rooms1) in
  let rooms3 := registry (startQuiz code rooms2) in
  startQuiz code rooms1 = mkOutcome (Replied (ReplyError NoPlayers)) rooms1 []
  ∧ (∃ room2, completion (playerJoin sid code nm rooms1) = Replied (ReplyRoom room2)
              ∧ rooms2 !! code = Some room2
              ∧ players room2 = [(sid, initializePlayer nm)])
  ∧ completion (startQuiz code rooms2)
    = Replied (ReplyText "Quiz started successfully")
  ∧ (∃ room3, rooms3 !! code = Some room3 ∧ quizStarted room3 = true
              ∧ players room3 = [(sid, initializePlayer nm)])
  ∧ playerJoin sid' code nm' rooms3
    = mkOutcome (Replied (ReplyError QuizAlreadyStarted)) rooms3 [].
Proof.
  intros Hcreate code rooms1 rooms2 rooms3.
  destruct (create_replied _ _ _ _ _ _ _ _ Hcreate)
    as (Hreg & _ & Hps & Hq & _).
  assert (rooms1 !! code = Some room) as H1.
  { subst rooms1 code. rewrite Hreg. apply lookup_insert_eq. }
  assert (startQuiz code rooms1
          = mkOutcome (Replied (ReplyError NoPlayers)) rooms1 []) as Hstart1.
  { unfold startQuiz. by rewrite H1, Hps. }
  assert (playerJoin sid code nm rooms1
          = mkOutcome
              (Replied (ReplyRoom (set_players [(sid, initializePlayer nm)] room)))
              (<[code := set_players [(sid, initializePlayer nm)] room]> rooms1)
              [SocketJoin sid (roomId room);
               Emit (gameMaster room) "player:joined"
                    (PPlayerJoined nm
                       (set_players [(sid, initializePlayer nm)] room))])
    as Hjoin.
  { unfold playerJoin. by rewrite H1, Hq, Hps. }
  assert (rooms2 !! code = Some (set_players [(sid, initializePlayer nm)] room))
    as H2.
  { subst rooms2. rewrite Hjoin. apply lookup_insert_eq. }
  assert (startQuiz code rooms2
          = mkOutcome (Replied (ReplyText "Quiz started successfully"))
              (<[code := set_quizStarted true
                           (set_players [(sid, initializePlayer nm)] room)]> rooms2)
              [Emit (roomId room) "quiz:started" (PMessage "The quiz has started!")])
    as Hstart2.
  { unfold startQuiz. by rewrite H2. }
  assert (rooms3 !! code
          = Some (set_quizStarted true
                    (set_players [(sid, initializePlayer nm)] room))) as H3.
  { subst rooms3. rewrite Hstart2. apply lookup_insert_eq. }
  split_and!.
  - exact Hstart1.
  - eexists. rewrite Hjoin. by split_and!.
  - by rewrite Hstart2.
  - eexists. by split_and!.
  - unfold playerJoin. by rewrite H3.
Qed.

Lemma create_join_start_witness :
  ∃ room,
    completion (create Sample.world "gm" None (Some 2%Z) [9%Z] 1 ∅)
    = Replied (ReplyRoom room)
    ∧ startQuiz (roomId room)
        (registry (create Sample.world "gm" None (Some 2%Z) [9%Z] 1 ∅))
      = mkOutcome (Replied (ReplyError NoPlayers))
          (registry (create Sample.world "gm" None (Some 2%Z) [9%Z] 1 ∅)) [].
Proof.
  eexists. split; [vm_compute; reflexivity|].
  refine (proj1 (create_join_start Sample.world "gm" None (Some 2%Z) [9%Z] 1 ∅
                   _ "s1" "Ann" "s2" "Bob" _)).
  vm_compute. reflexivity.
Defined.

(** ** Rounds *)

(** X19.  A failed fetch leaves the room on its round: when the plan has a
    next category and the provider fails on the request for it, [nextRound]
    replies with [RoundGenerationFailed], the registry is what it was and
    nothing is emitted, so that a [nextRound] tried again does what it would
    have done in the first place. *)
Theorem nextRound_failure_atomic w w' rid rooms room next :
  rooms !! rid = Some room →
  nextCategoryId (currentRound (currentProgress room)) (rounds room) = Some next →
  provider w (OpenTrivia.mkRequest (questionPerRound room) next
                (default "easy" (difficultyMap (mode room)))) = None →
  nextRound w rid rooms
  = mkOutcome (Replied (ReplyError RoundGenerationFailed)) rooms []
  ∧ nextRound w' rid (registry (nextRound w rid rooms)) = nextRound w' rid rooms.
Proof.
  intros Hroom Hnext Hprov.
  assert (nextRound w rid rooms
          = mkOutcome (Replied (ReplyError RoundGenerationFailed)) rooms [])
    as Heq.
  { unfold nextRound. rewrite Hroom.
    by rewrite (generateRound_next _ _ _ _ _ _ _ _ _ Hnext), Hprov. }
  split; [done|]. by rewrite Heq.
Qed.

Lemma nextRound_failure_atomic_witness :
  Sample.registry_of Sample.two_rounds !! "482913" = Some Sample.two_rounds
  ∧ nextCategoryId (currentRound (currentProgress Sample.two_rounds))
                   (rounds Sample.two_rounds) = Some (CatId 12)
  ∧ provider Sample.failing_world
      (OpenTrivia.mkRequest (questionPerRound Sample.two_rounds) (CatId 12)
         (default "easy" (difficultyMap (mode Sample.two_rounds)))) = None
  ∧ nextRound Sample.failing_world "482913" (Sample.registry_of Sample.two_rounds)
    = mkOutcome (Replied (ReplyError RoundGenerationFailed))
                (Sample.registry_of Sample.two_rounds) [].
Proof.
  assert (Sample.registry_of Sample.two_rounds !! "482913"
          = Some Sample.two_rounds) as H1 by (vm_compute; reflexivity).
  assert (nextCategoryId (currentRound (currentProgress Sample.two_rounds))
                         (rounds Sample.two_rounds) = Some (CatId 12))
    as H2 by (vm_compute; reflexivity).
  assert (provider Sample.failing_world
            (OpenTrivia.mkRequest (questionPerRound Sample.two_rounds) (CatId 12)
               (default "easy" (difficultyMap (mode Sample.two_rounds)))) = None)
    as H3 by reflexivity.
  exact (conj H1 (conj H2 (conj H3
           (proj1 (nextRound_failure_atomic Sample.failing_world Sample.world
                     "482913" _ _ _ H1 H2 H3))))).
Defined.

(** In a plan without repeated categories every entry is its own first
    occurrence. *)
Lemma NoDup_first (plan : list Z) i c :
  NoDup plan → plan !! i = Some c → ∀ j, j < i → plan !! j ≠ Some c.
Proof.
  intros Hnd Hi j Hj Hjc.
  assert (j = i) by (by eapply NoDup_lookup). lia.
Qed.

Lemma nextCategoryId_first plan i c :
  plan !! i = Some c → (∀ j, j < i → plan !! j ≠ Some c) →
  nextCategoryId (CatId c) plan = CatId <$> plan !! S i.
Proof.
  intros Hi Hfirst. unfold nextCategoryId.
  rewrite (indexOf_first c plan i) by done.
  destruct (plan !! S i) as [c'|] eqn:Hnext.
  - apply lookup_lt_Some in Hnext as Hlt. rewrite decide_True by lia.
    replace (Z.of_nat i + 1)%Z with (Z.of_nat (S i)) by lia.
    by rewrite (round_at_lookup _ _ c').
  - apply lookup_ge_None in Hnext. by rewrite decide_False by lia.
Qed.

(** X20.  A plan without repeated categories is played in order.  From the
    category at index [i], the next category is the one at index [i + 1], and
    there is none after the last.  A [nextRound] that replies with the room
    has then moved it to that next category with a new question set, or, at
    the end of the plan, has left it on its category with the value
    "end of round". *)
Theorem plan_played_in_order w rid rooms room room' i c :
  NoDup (rounds room) →
  rounds room !! i = Some c →
  currentRound (currentProgress room) = CatId c →
  rooms !! rid = Some room →
  completion (nextRound w rid rooms) = Replied (ReplyRoom room') →
  nextCategoryId (CatId c) (rounds room) = CatId <$> rounds room !! S i
  ∧ match rounds room !! S i with
    | Some c' =>
        currentRound (currentProgress room') = CatId c'
        ∧ ∃ qs, roundQuestions (currentProgress room') = RQObject qs
    | None =>
        currentRound (currentProgress room') = CatId c
        ∧ roundQuestions (currentProgress room') = RQEndOfRound
    end.
Proof.
  intros Hnd Hi Hcur Hroom.
  pose proof (nextCategoryId_first _ i c Hi (NoDup_first _ _ _ Hnd Hi)) as Hnext.
  unfold nextRound. rewrite Hroom, Hcur.
  destruct (rounds room !! S i) as [c'|];
    cbn [fmap option_fmap option_map] in Hnext.
  - rewrite (generateRound_next _ _ _ _ _ _ _ _ _ Hnext).
    destruct (provider w _) as [results|]; [|done]. simpl.
    intros [= <-]. simpl. eauto.
  - unfold generateRound. rewrite Hnext. simpl. intros [= <-]. by simpl.
Qed.

Lemma plan_played_in_order_witness :
  ∃ room',
    NoDup (rounds Sample.two_rounds)
    ∧ rounds Sample.two_rounds !! 0 = Some 9%Z
    ∧ currentRound (currentProgress Sample.two_rounds) = CatId 9
    ∧ Sample.registry_of Sample.two_rounds !! "482913" = Some Sample.two_rounds
    ∧ completion (nextRound Sample.world "482913"
                    (Sample.registry_of Sample.two_rounds))
      = Replied (ReplyRoom room')
    ∧ currentRound (currentProgress room') = CatId 12.
Proof.
  eexists.
  assert (NoDup (rounds Sample.two_rounds)) as H1.
  { apply (bool_decide_unpack _). by vm_compute. }
  assert (rounds Sample.two_rounds !! 0 = Some 9%Z) as H2 by reflexivity.
  assert (currentRound (currentProgress Sample.two_rounds) = CatId 9)
    as H3 by reflexivity.
  assert (Sample.registry_of Sample.two_rounds !! "482913"
          = Some Sample.two_rounds) as H4 by (vm_compute; reflexivity).
  do 4 (split; [assumption|]).
  split; [vm_compute; reflexivity|].
  refine (proj1 (proj2 (plan_played_in_order Sample.world "482913" _ _ _ 0 9%Z
                          H1 H2 H3 H4 _))).
  vm_compute. reflexivity.
Defined.

(** X21.  A plan that repeats a category right after its first occurrence
    never gets past it: [generateRound] looks the current category up by its
    first index, so the next category is that same category again.  However
    many [nextRound] events arrive, and whatever the provider does, the room
    stays on that category and the plan is never exhausted: its questions
    are what they were or a new question set, never "end of round". *)
Theorem repeated_category_never_passed ws sid rid rooms room i c :
  rounds room !! i = Some c →
  (∀ j, j < i → rounds room !! j ≠ Some c) →
  rounds room !! S i = Some c →
  currentRound (currentProgress room) = CatId c →
  rooms !! rid = Some room →
  ∃ room',
    run ((λ w, (w, QuizNextRound sid rid)) <$> ws) rooms !! rid = Some room'
    ∧ rounds room' = rounds room
    ∧ currentRound (currentProgress room') = CatId c
    ∧ (roundQuestions (currentProgress room')
       = roundQuestions (currentProgress room)
       ∨ ∃ qs, roundQuestions (currentProgress room') = RQObject qs).
Proof.
  intros Hi Hfirst Hrep. revert rooms room Hi Hfirst Hrep.
  induction ws as [|w ws IH]; intros rooms room Hi Hfirst Hrep Hcur Hroom.
  { exists room. split_and!; [done..|by left]. }
  pose proof (nextCategoryId_first _ i c Hi Hfirst) as Hnext.
  rewrite Hrep in Hnext. cbn [fmap option_fmap option_map] in Hnext.
  rewrite fmap_cons. cbn [run handle].
  assert (∃ room1,
            registry (nextRound w rid rooms) !! rid = Some room1
            ∧ rounds room1 = rounds room
            ∧ currentRound (currentProgress room1) = CatId c
            ∧ (roundQuestions (currentProgress room1)
               = roundQuestions (currentProgress room)
               ∨ ∃ qs, roundQuestions (currentProgress room1) = RQObject qs))
    as (room1 & Hroom1 & Hplan1 & Hcur1 & Hqs1).
  { unfold nextRound. rewrite Hroom, Hcur.
    rewrite (generateRound_next _ _ _ _ _ _ _ _ _ Hnext).
    destruct (provider w _) as [results|]; cbn [registry].
    - rewrite lookup_insert_eq. eexists. split; [reflexivity|]. simpl. eauto.
    - exists room. split_and!; [done..|by left]. }
  destruct (IH (registry (nextRound w rid rooms)) room1)
    as (room' & Hroom' & Hplan' & Hcur' & Hqs'); try done;
    try (by rewrite Hplan1).
  exists room'. split_and!; [done|congruence|done|].
  destruct Hqs' as [Hsame|?]; [|by right].
  rewrite Hsame. exact Hqs1.
Qed.

Lemma repeated_category_never_passed_witness :
  [10; 10; 12]%Z !! 0 = Some 10%Z
  ∧ (∀ j, j < 0 → [10; 10; 12]%Z !! j ≠ Some 10%Z)
  ∧ [10; 10; 12]%Z !! 1 = Some 10%Z
  ∧ ∃ room',
      run ((λ w, (w, QuizNextRound "gm" "482913"))
           <$> [Sample.world; Sample.failing_world; Sample.world])
          (Sample.registry_of
             (mkRoom "482913" "gm" 0 2 1 [10; 10; 12]%Z [] true
                     (mkProgress (CatId 10) 1 (RQObject Sample.questions))))
      !! "482913" = Some room'
      ∧ currentRound (currentProgress room') = CatId 10.
Proof.
  pose (room := mkRoom "482913" "gm" 0 2 1 [10; 10; 12]%Z [] true
                  (mkProgress (CatId 10) 1 (RQObject Sample.questions))).
  assert (rounds room !! 0 = Some 10%Z) as H1 by reflexivity.
  assert (∀ j, j < 0 → rounds room !! j ≠ Some 10%Z) as H2 by (intros; lia).
  assert (rounds room !! 1 = Some 10%Z) as H3 by reflexivity.
  assert (currentRound (currentProgress room) = CatId 10) as H4 by reflexivity.
  assert (Sample.registry_of room !! "482913" = Some room)
    as H5 by (vm_compute; reflexivity).
  destruct (repeated_category_never_passed
              [Sample.world; Sample.failing_world; Sample.world]
              "gm" "482913" _ room 0 10%Z H1 H2 H3 H4 H5)
    as (room' & Hroom' & _ & Hcur' & _).
  exact (conj H1 (conj H2 (conj H3
           (ex_intro _ room' (conj Hroom' Hcur'))))).
Defined.

(** ** Advancing beyond the questions *)

(** X22.  [nextQuestion] stores any question id and changes nothing else of
    the room.  With an id the room's question set does not have, every
    [submitAnswer] from a player that follows is answered with
    [NoActiveQuestion] and changes nothing; a [nextQuestion] back to an id the
    set has makes [submitAnswer] succeed again. *)
Theorem nextQuestion_then_submit socket_id rid qid qid' answer rooms room qs p q :
  rooms !! rid = Some room →
  roundQuestions (currentProgress room) = RQObject qs →
  qs !! qid = None →
  qs !! qid' = Some q →
  JsObject.get socket_id (players room) = Some p →
  let rooms1 := registry (nextQuestion rid qid rooms) in
  let rooms2 := registry (nextQuestion rid qid' rooms1) in
  nextQuestion rid qid rooms
  = mkOutcome (Replied (ReplyRoom (set_currentQuestion qid room)))
      (<[rid := set_currentQuestion qid room]> rooms)
      [Emit (roomId room) "quiz:nextQuestion" (PNextQuestion qid)]
  ∧ submitAnswer socket_id rid answer rooms1
    = mkOutcome (Replied (ReplyError NoActiveQuestion)) rooms1 []
  ∧ rooms2 !! rid = Some (set_currentQuestion qid' room)
  ∧ completion (submitAnswer socket_id rid answer rooms2)
    = Replied (ReplyMessage "Answer submitted successfully.").
Proof.
  intros Hroom Hqs Hnone Hsome Hp rooms1 rooms2.
  assert (nextQuestion rid qid rooms
          = mkOutcome (Replied (ReplyRoom (set_currentQuestion qid room)))
              (<[rid := set_currentQuestion qid room]> rooms)
              [Emit (roomId room) "quiz:nextQuestion" (PNextQuestion qid)])
    as Hnq.
  { unfold nextQuestion. by rewrite Hroom. }
  assert (rooms1 !! rid = Some (set_currentQuestion qid room)) as H1.
  { subst rooms1. rewrite Hnq. apply lookup_insert_eq. }
  assert (rooms2 !! rid = Some (set_currentQuestion qid' room)) as H2.
  { subst rooms2. unfold nextQuestion at 1. rewrite H1. cbn [registry].
    by rewrite lookup_insert_eq. }
  split_and!; [done| |done|].
  - unfold submitAnswer, question_slot. rewrite H1. simpl.
    by rewrite Hp, Hqs, Hnone.
  - rewrite (submitAnswer_active socket_id rid answer rooms2
               (set_currentQuestion qid' room) p q H2 Hp); [done|].
    unfold active_question. simpl. by rewrite Hqs.
Qed.

Lemma nextQuestion_then_submit_witness :
  Sample.registry_of Sample.started1 !! "482913" = Some Sample.started1
  ∧ roundQuestions (currentProgress Sample.started1) = RQObject Sample.questions
  ∧ Sample.questions !! 99%Z = None
  ∧ Sample.questions !! 2%Z = Some Sample.q2
  ∧ JsObject.get "s1" (players Sample.started1) = Some (Sample.player "Ann" 0 0)
  ∧ submitAnswer "s1" "482913" 1
      (registry (nextQuestion "482913" 99 (Sample.registry_of Sample.started1)))
    = mkOutcome (Replied (ReplyError NoActiveQuestion))
        (registry (nextQuestion "482913" 99 (Sample.registry_of Sample.started1)))
        [].
Proof.
  assert (Sample.registry_of Sample.started1 !! "482913" = Some Sample.started1)
    as H1 by (vm_compute; reflexivity).
  assert (roundQuestions (currentProgress Sample.started1)
          = RQObject Sample.questions) as H2 by reflexivity.
  assert (Sample.questions !! 99%Z = None) as H3 by (vm_compute; reflexivity).
  assert (Sample.questions !! 2%Z = Some Sample.q2)
    as H4 by (vm_compute; reflexivity).
  assert (JsObject.get "s1" (players Sample.started1)
          = Some (Sample.player "Ann" 0 0)) as H5 by (vm_compute; reflexivity).
  exact (conj H1 (conj H2 (conj H3 (conj H4 (conj H5
           (proj1 (proj2 (nextQuestion_then_submit "s1" "482913" 99 2 1
                            _ _ _ _ _ H1 H2 H3 H4 H5)))))))).
Defined.

(** ** A new round can be answered *)

(** X23.  When [nextRound] gets at least one question from the provider, the
    room is on question 1 of the new set and every player starts the round
    from 0: some answer choice selects the correct answer of question 1, and
    a player who submits it has [currentRoundScore] 1, a [totalScore] one
    higher than before the round, and the single recorded answer [true]
    under 1. *)
Theorem nextRound_then_submit w socket_id rid rooms room next qd results p :
  rooms !! rid = Some room →
  nextCategoryId (currentRound (currentProgress room)) (rounds room) = Some next →
  provider w (OpenTrivia.mkRequest (questionPerRound room) next
                (default "easy" (difficultyMap (mode room))))
  = Some (qd :: results) →
  JsObject.get socket_id (players room) = Some p →
  ∃ answer room2 p2,
    registry (submitAnswer socket_id rid answer (registry (nextRound w rid rooms)))
    !! rid = Some room2
    ∧ JsObject.get socket_id (players room2) = Some p2
    ∧ currentRoundScore p2 = 1
    ∧ totalScore p2 = totalScore p + 1
    ∧ currentRoundAnswers p2 = {[1%Z := true]}
    ∧ currentRound (currentProgress room2) = next.
Proof.
  intros Hroom Hnext Hprov Hp.
  destruct (format_questions_lookup (random w) (position w) 0 (qd :: results)
              ∅ 0 qd eq_refl) as (answers & Hlook & Hperm).
  change (0 + 1 + Z.of_nat 0)%Z with 1%Z in Hlook.
  set (q := mkQuestion (OpenTrivia.question qd) (OpenTrivia.correct_answer qd)
                       answers) in *.
  destruct (selects_correct_exists q) as (answer & _ & Hsel).
  { simpl. rewrite Hperm. left. }
  set (qs := (format_questions (random w) (position w) 0 (qd :: results) ∅).1)
    in *.
  set (room1 := set_players (reset_players (players room))
                  (set_currentProgress (mkProgress next 1 (RQObject qs)) room)).
  assert (registry (nextRound w rid rooms) = <[rid := room1]> rooms) as Hreg.
  { unfold nextRound. rewrite Hroom.
    by rewrite (generateRound_next _ _ _ _ _ _ _ _ _ Hnext), Hprov. }
  assert (registry (nextRound w rid rooms) !! rid = Some room1) as Hroom1.
  { rewrite Hreg. apply lookup_insert_eq. }
  assert (JsObject.get socket_id (players room1) = Some (reset_player p)) as Hp1.
  { subst room1. simpl. by rewrite reset_players_get, Hp. }
  assert (active_question room1 = Some q) as Hq1 by exact Hlook.
  exists answer. eexists _, _.
  rewrite (submitAnswer_active _ _ _ _ _ _ _ Hroom1 Hp1 Hq1). cbn [registry].
  rewrite lookup_insert_eq. split; [reflexivity|]. cbn [players set_players].
  rewrite get_alter_eq, Hp1. split; [reflexivity|].
  unfold selects_correct in Hsel.
  rewrite bool_decide_eq_true_2 by done. simpl. by split_and!.
Qed.

Lemma nextRound_then_submit_witness :
  Sample.registry_of Sample.two_rounds !! "482913" = Some Sample.two_rounds
  ∧ nextCategoryId (currentRound (currentProgress Sample.two_rounds))
                   (rounds Sample.two_rounds) = Some (CatId 12)
  ∧ JsObject.get "s1" (players Sample.two_rounds)
    = Some (mkPlayer "Ann" 1 4 {[1%Z := true; 2%Z := false]} (Some 2) (Some 1))
  ∧ ∃ answer room2 p2,
      registry (submitAnswer "s1" "482913" answer
                  (registry (nextRound Sample.world "482913"
                               (Sample.registry_of Sample.two_rounds))))
      !! "482913" = Some room2
      ∧ JsObject.get "s1" (players room2) = Some p2
      ∧ currentRoundScore p2 = 1
      ∧ totalScore p2 = 4 + 1.
Proof.
  assert (Sample.registry_of Sample.two_rounds !! "482913"
          = Some Sample.two_rounds) as H1 by (vm_compute; reflexivity).
  assert (nextCategoryId (currentRound (currentProgress Sample.two_rounds))
                         (rounds Sample.two_rounds) = Some (CatId 12))
    as H2 by (vm_compute; reflexivity).
  assert (provider Sample.world
            (OpenTrivia.mkRequest (questionPerRound Sample.two_rounds) (CatId 12)
               (default "easy" (difficultyMap (mode Sample.two_rounds))))
          = Some (OpenTrivia.mkQuestionData "Capital of France?" "Paris"
                    ["Rome"; "Oslo"; "Bern"]
                  :: [OpenTrivia.mkQuestionData "2 + 2?" "4" ["3"; "5"; "22"]]))
    as H3 by reflexivity.
  assert (JsObject.get "s1" (players Sample.two_rounds)
          = Some (mkPlayer "Ann" 1 4 {[1%Z := true; 2%Z := false]}
                           (Some 2) (Some 1)))
    as H4 by (vm_compute; reflexivity).
  destruct (nextRound_then_submit Sample.world "s1" "482913" _ _ _ _ _ _
              H1 H2 H3 H4)
    as (answer & room2 & p2 & Hr2 & Hp2 & Hround & Htotal & _).
  exact (conj H1 (conj H2 (conj H4
           (ex_intro _ answer (ex_intro _ room2 (ex_intro _ p2
              (conj Hr2 (conj Hp2 (conj Hround Htotal))))))))).
Defined.
